(** * VoiceRecorder: a shallow embedding of src/components/VoiceRecorder.tsx

    The React component is modelled as a transition system.  Its [useState]
    cells and [useRef] cells form the record [State]; every event handler,
    interval callback and timeout callback is a computation in a small
    state / trace / exception monad [M]; the [useEffect] hooks are re-run
    after every handler when their dependency list changed.

    The audio device (expo-audio) is an external collaborator: whatever a
    device call answers (returns, throws, reports) is an input of the
    handler, so every theorem quantifies over every device behaviour.

    Modelling conventions, fixed once:
    - a handler runs atomically (its [await]s are not interleaved with
      other callbacks) and the effects run right after it;
    - a handler reads the state variables of the render it was created in
      (its closure, the argument [cl]); a functional updater
      ([setDuration (prev => ...)]) reads the pending state instead;
    - console.log lines are left out, console.warn / console.error are kept
      (without their emoji prefix);
    - the status reads of startRecording and of the duration tick are
      issued and taken to return (in startRecording a throw would land in
      its catch block, like the throw of any other call there);
    - the duration in seconds is a [nat], delays in milliseconds are [N],
      the audio level is an exact rational. *)

From Stdlib Require Import Bool Arith NArith List String Ascii DecimalString.
From Stdlib Require Import QArith Lia Lqa.
Import ListNotations.

Module VoiceRecorder.

Local Open Scope string_scope.
Local Open Scope nat_scope.
Local Open Scope list_scope.

(** ** Constants (lines 31-32) *)

Definition MAX_DURATION : nat := 300.
Definition WARNING_DURATION : nat := 270.

(** ** The device interface and what the component emits *)

Inductive Call : Type :=
| requestRecordingPermissionsAsync
| setAudioModeAsync (playsInSilentMode allowsRecording : bool)
| recorder_getStatus
| recorder_stop
| recorder_prepareToRecordAsync
| recorder_record
| recorder_pause
| player_replace (uri : string)
| player_pause
| player_seekTo (position : nat)
| player_play.

Inductive Exn : Type :=
| DeviceFailure (c : Call)      (* a device call threw *)
| RecordingFailedToStart.       (* the Error built at lines 361-365 *)

Inductive Output : Type :=
| Dev (c : Call) (returned : bool)   (* a device call, and whether it returned *)
| Sleep (ms : N)                     (* await new Promise(r => setTimeout(r, ms)) *)
| SetTimeout (ms : N)                (* setTimeout(() => setShowWarning(false), ms) *)
| ConsoleWarn (msg : string)
| ConsoleError (msg : string) (cause : Exn)
| ShowAlert (title : string) (cause : option Exn)
| AnimateBars (level : Q)
| OnSave (audioUri : string) (dur : nat)
| OnClose.

(** ** Component state (lines 52-65) *)

Record State : Type := mkState {
  isRecording : bool;
  isPaused : bool;
  duration : nat;
  recordedUri : option string;
  showWarning : bool;
  hasPermission : bool;
  audioLevel : Q;
  isPlaying : bool;
  timerRef : bool;                 (* timerRef.current holds a live interval *)
  meteringRef : bool;              (* meteringRef.current holds a live interval *)
  pendingTimeouts : list N         (* delays of the scheduled, not yet fired timeouts *)
}.

Definition initial : State :=
  mkState false false 0 None false false 0%Q false false false [].

Definition set_isRecording (b : bool) (s : State) : State :=
  mkState b (isPaused s) (duration s) (recordedUri s) (showWarning s)
    (hasPermission s) (audioLevel s) (isPlaying s) (timerRef s) (meteringRef s)
    (pendingTimeouts s).
Definition set_isPaused (b : bool) (s : State) : State :=
  mkState (isRecording s) b (duration s) (recordedUri s) (showWarning s)
    (hasPermission s) (audioLevel s) (isPlaying s) (timerRef s) (meteringRef s)
    (pendingTimeouts s).
Definition set_duration (n : nat) (s : State) : State :=
  mkState (isRecording s) (isPaused s) n (recordedUri s) (showWarning s)
    (hasPermission s) (audioLevel s) (isPlaying s) (timerRef s) (meteringRef s)
    (pendingTimeouts s).
Definition set_recordedUri (u : option string) (s : State) : State :=
  mkState (isRecording s) (isPaused s) (duration s) u (showWarning s)
    (hasPermission s) (audioLevel s) (isPlaying s) (timerRef s) (meteringRef s)
    (pendingTimeouts s).
Definition set_showWarning (b : bool) (s : State) : State :=
  mkState (isRecording s) (isPaused s) (duration s) (recordedUri s) b
    (hasPermission s) (audioLevel s) (isPlaying s) (timerRef s) (meteringRef s)
    (pendingTimeouts s).
Definition set_hasPermission (b : bool) (s : State) : State :=
  mkState (isRecording s) (isPaused s) (duration s) (recordedUri s) (showWarning s)
    b (audioLevel s) (isPlaying s) (timerRef s) (meteringRef s)
    (pendingTimeouts s).
Definition set_audioLevel (q : Q) (s : State) : State :=
  mkState (isRecording s) (isPaused s) (duration s) (recordedUri s) (showWarning s)
    (hasPermission s) q (isPlaying s) (timerRef s) (meteringRef s)
    (pendingTimeouts s).
Definition set_isPlaying (b : bool) (s : State) : State :=
  mkState (isRecording s) (isPaused s) (duration s) (recordedUri s) (showWarning s)
    (hasPermission s) (audioLevel s) b (timerRef s) (meteringRef s)
    (pendingTimeouts s).
Definition set_timerRef (b : bool) (s : State) : State :=
  mkState (isRecording s) (isPaused s) (duration s) (recordedUri s) (showWarning s)
    (hasPermission s) (audioLevel s) (isPlaying s) b (meteringRef s)
    (pendingTimeouts s).
Definition set_meteringRef (b : bool) (s : State) : State :=
  mkState (isRecording s) (isPaused s) (duration s) (recordedUri s) (showWarning s)
    (hasPermission s) (audioLevel s) (isPlaying s) (timerRef s) b
    (pendingTimeouts s).
Definition set_pendingTimeouts (l : list N) (s : State) : State :=
  mkState (isRecording s) (isPaused s) (duration s) (recordedUri s) (showWarning s)
    (hasPermission s) (audioLevel s) (isPlaying s) (timerRef s) (meteringRef s)
    l.

(** JavaScript truthiness of a [string | null]: null and the empty string
    are falsy. *)
Definition truthy (u : option string) : bool :=
  match u with
  | None => false
  | Some EmptyString => false
  | Some (String _ _) => true
  end.

Definition uri_eqb (a b : option string) : bool :=
  match a, b with
  | None, None => true
  | Some x, Some y => String.eqb x y
  | _, _ => false
  end.

(** ** The monad of handlers: pending state, emitted trace, exceptions.
    A thrown exception keeps the state updates and the outputs made so far,
    as in JavaScript. *)

Inductive Res (A : Type) : Type :=
| Returned (a : A)
| Thrown (e : Exn).
Arguments Returned {A} a.
Arguments Thrown {A} e.

Definition M (A : Type) : Type :=
  State -> list Output -> Res A * State * list Output.

Definition ret {A} (a : A) : M A := fun s o => (Returned a, s, o).

Definition bind {A B} (c : M A) (k : A -> M B) : M B :=
  fun s o =>
    match c s o with
    | (Returned a, s1, o1) => k a s1 o1
    | (Thrown e, s1, o1) => (Thrown e, s1, o1)
    end.

Definition throw {A} (e : Exn) : M A := fun s o => (Thrown e, s, o).

Definition try_catch {A} (c : M A) (h : Exn -> M A) : M A :=
  fun s o =>
    match c s o with
    | (Returned a, s1, o1) => (Returned a, s1, o1)
    | (Thrown e, s1, o1) => h e s1 o1
    end.

Definition emit (x : Output) : M unit := fun s o => (Returned tt, s, o ++ [x]).
Definition update (f : State -> State) : M unit := fun s o => (Returned tt, f s, o).
Definition pending {A} (f : State -> A) : M A := fun s o => (Returned (f s), s, o).

(** A device call that returns nothing: it is issued, and it returns or
    throws as the device decides. *)
Definition call (c : Call) (returns : bool) : M unit :=
  fun s o =>
    if returns then (Returned tt, s, o ++ [Dev c true])
    else (Thrown (DeviceFailure c), s, o ++ [Dev c false]).

(** A device call with an answer; [None] is a throw. *)
Definition call_value {A} (c : Call) (answer : option A) : M A :=
  fun s o =>
    match answer with
    | Some a => (Returned a, s, o ++ [Dev c true])
    | None => (Thrown (DeviceFailure c), s, o ++ [Dev c false])
    end.

Definition when (b : bool) (c : M unit) : M unit := if b then c else ret tt.

Notation "x <- c1 ;; c2" := (bind c1 (fun x => c2))
  (at level 61, c1 at next level, right associativity).
Notation "c1 ;; c2" := (bind c1 (fun _ => c2))
  (at level 61, right associativity).

(** ** What the device answers during one handler *)

Record StartEnv : Type := mkStartEnv {
  st_permission : option bool;   (* permission.granted; None: the request throws *)
  st_modeOk : bool;              (* setAudioModeAsync returns *)
  st_statusBefore : bool;        (* statusBefore.isRecording *)
  st_stopOk : bool;              (* audioRecorder.stop() returns *)
  st_prepareOk : bool;           (* prepareToRecordAsync returns *)
  st_recordOk : bool;            (* audioRecorder.record() returns *)
  st_statusAfter : bool          (* statusAfter.isRecording *)
}.

Record StopEnv : Type := mkStopEnv {
  sp_stopOk : bool;              (* audioRecorder.stop() returns *)
  sp_uri : option string;        (* audioRecorder.uri after the stop *)
  sp_replaceOk : bool            (* audioPlayer.replace(uri) returns *)
}.

Record PlayEnv : Type := mkPlayEnv {
  pl_pauseOk : bool;
  pl_seekOk : bool;
  pl_modeOk : bool;
  pl_playOk : bool
}.

Record CloseEnv : Type := mkCloseEnv {
  cl_stopOk : bool;
  cl_pauseOk : bool
}.

(** ** Handlers *)

(** requestPermissions, lines 254-277. *)
Definition requestPermissions (perm : option bool) (modeOk : bool) : M unit :=
  try_catch
    (granted <- call_value requestRecordingPermissionsAsync perm ;;
     update (set_hasPermission granted) ;;
     if granted then call (setAudioModeAsync true true) modeOk
     else emit (ConsoleWarn "Permission not granted initially"))
    (fun e => emit (ConsoleError "Permission error" e)).

(** startRecording, lines 279-387. *)
Definition startRecording (e : StartEnv) : M unit :=
  try_catch
    (granted <- call_value requestRecordingPermissionsAsync (st_permission e) ;;
     if negb granted then
       emit (ConsoleWarn "Microphone permission denied") ;;
       emit (ShowAlert "Microphone Permission Required" None)
     else
       call (setAudioModeAsync true true) (st_modeOk e) ;;
       statusBefore <- call_value recorder_getStatus (Some (st_statusBefore e)) ;;
       when statusBefore
         (call recorder_stop (st_stopOk e) ;; emit (Sleep 200%N)) ;;
       call recorder_prepareToRecordAsync (st_prepareOk e) ;;
       call recorder_record (st_recordOk e) ;;
       emit (Sleep 200%N) ;;
       statusAfter <- call_value recorder_getStatus (Some (st_statusAfter e)) ;;
       if statusAfter then
         update (set_isRecording true) ;;
         update (set_isPaused false) ;;
         update (set_duration 0) ;;
         update (set_recordedUri None)
       else
         throw RecordingFailedToStart)
    (fun err =>
       emit (ConsoleError "Recording error" err) ;;
       update (set_isRecording false) ;;
       update (set_isPaused false) ;;
       update (set_duration 0) ;;
       emit (ShowAlert "Recording Error" (Some err))).

(** pauseRecording, lines 389-398. *)
Definition pauseRecording (ok : bool) : M unit :=
  try_catch
    (call recorder_pause ok ;; update (set_isPaused true))
    (fun e => emit (ConsoleError "Pause error" e)).

(** resumeRecording, lines 400-409. *)
Definition resumeRecording (ok : bool) : M unit :=
  try_catch
    (call recorder_record ok ;; update (set_isPaused false))
    (fun e => emit (ConsoleError "Resume error" e)).

(** stopRecording, lines 411-431. *)
Definition stopRecording (e : StopEnv) : M unit :=
  try_catch
    (call recorder_stop (sp_stopOk e) ;;
     update (set_isRecording false) ;;
     update (set_isPaused false) ;;
     if truthy (sp_uri e) then update (set_recordedUri (sp_uri e))
     else emit (ConsoleWarn "No URI returned from recorder"))
    (fun err => emit (ConsoleError "Stop error" err)).

(** The interval callback of the duration timer, lines 207-237.
    [devIsRecording] is what the status read of line 209 reports in
    status.isRecording; the updater of setDuration reads the pending
    duration and returns either it or its successor. *)
Definition timerTick (devIsRecording : bool) (e : StopEnv) : M unit :=
  isRec <- call_value recorder_getStatus (Some devIsRecording) ;;
  if negb isRec then
    emit (ConsoleWarn "Timer running but recorder not recording! Stopping timer.") ;;
    update (set_timerRef false) ;;
    update (set_isRecording false)
  else
    prev <- pending duration ;;
    let newDuration := prev + 1 in
    when (newDuration =? WARNING_DURATION)
      (update (set_showWarning true) ;;
       emit (SetTimeout 3000%N) ;;
       update (fun s => set_pendingTimeouts (pendingTimeouts s ++ [3000%N]) s)) ;;
    if MAX_DURATION <=? newDuration then
      stopRecording e ;;
      update (set_duration prev)
    else
      update (set_duration newDuration).

(** The callback scheduled at line 226: [() => setShowWarning(false)]. *)
Definition warningTimeout : M unit :=
  update (fun s => set_pendingTimeouts (tl (pendingTimeouts s)) s) ;;
  update (set_showWarning false).

(** Math.max and Math.min on exact rationals. *)
Definition Math_max (a b : Q) : Q := if Qle_bool a b then b else a.
Definition Math_min (a b : Q) : Q := if Qle_bool a b then a else b.

(** Lines 153-160: the level computed from one metering sample that is a
    finite number; [None] is an undefined or null reading.  The infinities
    and NaN are added by [normalizeNumber] below. *)
Definition normalize (metering : option Q) : Q :=
  match metering with
  | Some m => Math_max 0 (Math_min 1 ((m + 160) / 160))
  | None => 0
  end%Q.

(** The interval callback of the metering monitor, lines 139-164.
    [status] is what getStatus answers: [None] when it throws, otherwise
    the metering field. *)
Definition meteringTick (status : option (option Q)) : M unit :=
  try_catch
    (metering <- call_value recorder_getStatus status ;;
     update (set_audioLevel (normalize metering)) ;;
     emit (AnimateBars (normalize metering)))
    (fun e => emit (ConsoleError "Metering error" e)).

(** The 100 ms playback poll, lines 98-109 ([playing] is audioPlayer.playing). *)
Definition pollPlayback (cl : State) (playing : bool) : M unit :=
  when (negb (Bool.eqb playing (isPlaying cl))) (update (set_isPlaying playing)).

(** playRecording, lines 433-480.  The completion monitor it installs
    (lines 468-474) only ever sets isPlaying to false when the player is
    not playing, which [pollPlayback] covers. *)
Definition playRecording (cl : State) (e : PlayEnv) : M unit :=
  if negb (truthy (recordedUri cl)) then
    emit (ConsoleWarn "No recording to play")
  else
    try_catch
      (when (isPlaying cl)
         (call player_pause (pl_pauseOk e) ;; emit (Sleep 100%N)) ;;
       call (player_seekTo 0) (pl_seekOk e) ;;
       call (setAudioModeAsync true false) (pl_modeOk e) ;;
       call player_play (pl_playOk e) ;;
       update (set_isPlaying true))
      (fun err =>
         emit (ConsoleError "Playback error" err) ;;
         update (set_isPlaying false)).

(** pausePlayback, lines 482-491. *)
Definition pausePlayback (ok : bool) : M unit :=
  try_catch
    (call player_pause ok ;; update (set_isPlaying false))
    (fun e => emit (ConsoleError "Pause playback error" e)).

(** The play button, line 704: [isPlaying ? pausePlayback : playRecording]. *)
Definition togglePlay (cl : State) (e : PlayEnv) : M unit :=
  if isPlaying cl then pausePlayback (pl_pauseOk e) else playRecording cl e.

(** cleanupRecording, lines 493-526. *)
Definition cleanupRecording (cl : State) (e : CloseEnv) : M unit :=
  try_catch
    (when (isRecording cl) (call recorder_stop (cl_stopOk e)))
    (fun err => emit (ConsoleError "Error stopping recorder" err)) ;;
  try_catch
    (when (isPlaying cl)
       (call player_pause (cl_pauseOk e) ;; update (set_isPlaying false)))
    (fun err => emit (ConsoleError "Error pausing player" err)) ;;
  update (set_timerRef false) ;;
  update (set_meteringRef false).

(** handleClose, lines 528-537. *)
Definition handleClose (cl : State) (e : CloseEnv) : M unit :=
  cleanupRecording cl e ;;
  update (set_isRecording false) ;;
  update (set_isPaused false) ;;
  update (set_duration 0) ;;
  update (set_recordedUri None) ;;
  update (set_showWarning false) ;;
  update (set_audioLevel 0%Q) ;;
  emit OnClose.

(** handleSave, lines 539-544. *)
Definition handleSave (cl : State) (e : CloseEnv) : M unit :=
  match recordedUri cl with
  | Some u =>
      if truthy (recordedUri cl) && (0 <? duration cl) then
        emit (OnSave u (duration cl)) ;;
        handleClose cl e
      else ret tt
  | None => ret tt
  end.

(** The onPress of the Record Again button, lines 731-741 (no try/catch). *)
Definition recordAgain (cl : State) (pauseOk : bool) : M unit :=
  when (isPlaying cl)
    (call player_pause pauseOk ;; update (set_isPlaying false)) ;;
  update (set_isRecording false) ;;
  update (set_isPaused false) ;;
  update (set_duration 0) ;;
  update (set_recordedUri None) ;;
  update (set_audioLevel 0%Q).

(** ** Effects *)

(** The effect on [recordedUri], lines 72-82. *)
Definition uriEffect (prev : State) (replaceOk : bool) : M unit :=
  next <- pending (fun s => s) ;;
  when (negb (uri_eqb (recordedUri prev) (recordedUri next)))
    (match recordedUri next with
     | Some u =>
         when (truthy (recordedUri next))
           (try_catch
              (call (player_replace u) replaceOk ;; update (set_isPlaying false))
              (fun e => emit (ConsoleError "Error updating audio source" e)))
     | None => ret tt
     end).

(** The metering effect (lines 136-187) and the timer effect (lines
    204-252), both on [isRecording, isPaused]: the cleanup of the previous
    run clears the old interval, the body installs a new one or nulls the
    ref. *)
Definition recordingEffects (prev : State) : M unit :=
  next <- pending (fun s => s) ;;
  when (negb (Bool.eqb (isRecording prev) (isRecording next)
              && Bool.eqb (isPaused prev) (isPaused next)))
    (if isRecording next && negb (isPaused next) then
       update (set_meteringRef true) ;;
       update (set_timerRef true)
     else
       update (set_meteringRef false) ;;
       update (set_audioLevel 0%Q) ;;
       update (set_timerRef false)).

Definition effects (prev : State) (replaceOk : bool) : M unit :=
  uriEffect prev replaceOk ;;
  recordingEffects prev.

Definition exec (c : M unit) (s : State) : State * list Output :=
  match c s [] with
  | (_, s1, o1) => (s1, o1)
  end.

(** ** The transition system *)

Inductive Event : Type :=
| PressStart (e : StartEnv)
| PressPause (ok : bool)
| PressResume (ok : bool)
| PressStop (e : StopEnv)
| TimerTick (devIsRecording : bool) (e : StopEnv)
| MeteringTick (status : option (option Q))
| WarningTimeout
| PollPlayback (playing : bool)
| PressPlay (e : PlayEnv)
| PressRecordAgain (pauseOk : bool)
| PressSave (e : CloseEnv)
| PressClose (e : CloseEnv).

Definition handler (cl : State) (ev : Event) : M unit :=
  match ev with
  | PressStart e => startRecording e
  | PressPause ok => pauseRecording ok
  | PressResume ok => resumeRecording ok
  | PressStop e => stopRecording e
  | TimerTick d e => timerTick d e
  | MeteringTick st => meteringTick st
  | WarningTimeout => warningTimeout
  | PollPlayback p => pollPlayback cl p
  | PressPlay e => togglePlay cl e
  | PressRecordAgain ok => recordAgain cl ok
  | PressSave e => handleSave cl e
  | PressClose e => handleClose cl e
  end.

(** Only a stop can make [recordedUri] truthy, so only these events carry
    an answer for audioPlayer.replace. *)
Definition replaceAnswer (ev : Event) : bool :=
  match ev with
  | PressStop e => sp_replaceOk e
  | TimerTick _ e => sp_replaceOk e
  | _ => true
  end.

(** What a handler leaves as pending state, and what it emits. *)
Definition handled (ev : Event) (s : State) : State :=
  snd (fst (handler s ev s [])).
Definition trace (ev : Event) (s : State) : list Output :=
  snd (handler s ev s []).

(** One step: the handler runs on the current render, then the effects
    compare the previous render with the new state. *)
Definition step (ev : Event) (s : State) : State * list Output :=
  match effects s (replaceAnswer ev) (handled ev s) [] with
  | (_, s2, o2) => (s2, trace ev s ++ o2)
  end.

Definition next (ev : Event) (s : State) : State := fst (step ev s).
Definition outputs (ev : Event) (s : State) : list Output := snd (step ev s).

(** What the render offers (lines 620-747): the record view while
    [recordedUri] is falsy, with the start button or the pause/resume and
    stop buttons; the playback view otherwise.  Interval and timeout
    callbacks fire while their interval or timeout is live; the close
    button is always there. *)
Definition enabled (s : State) (ev : Event) : bool :=
  match ev with
  | PressStart _ => negb (truthy (recordedUri s)) && negb (isRecording s)
  | PressPause _ => negb (truthy (recordedUri s)) && isRecording s && negb (isPaused s)
  | PressResume _ => negb (truthy (recordedUri s)) && isRecording s && isPaused s
  | PressStop _ => negb (truthy (recordedUri s)) && isRecording s
  | TimerTick _ _ => timerRef s
  | MeteringTick _ => meteringRef s
  | WarningTimeout => match pendingTimeouts s with [] => false | _ :: _ => true end
  | PollPlayback _ => true
  | PressPlay _ => truthy (recordedUri s)
  | PressRecordAgain _ => truthy (recordedUri s)
  | PressSave _ => truthy (recordedUri s)
  | PressClose _ => true
  end.

(** The state after mounting: the mount effect calls requestPermissions
    (lines 84-92). *)
Definition mounted (perm : option bool) (modeOk : bool) : State :=
  fst (exec (requestPermissions perm modeOk) initial).

Inductive reachable : State -> Prop :=
| reachable_mounted : forall perm modeOk, reachable (mounted perm modeOk)
| reachable_step : forall s ev,
    reachable s -> enabled s ev = true -> reachable (next ev s).

Fixpoint run (evs : list Event) (s : State) : State :=
  match evs with
  | [] => s
  | ev :: rest => run rest (next ev s)
  end.

Fixpoint all_enabled (evs : list Event) (s : State) : bool :=
  match evs with
  | [] => true
  | ev :: rest => enabled s ev && all_enabled rest (next ev s)
  end.

(** The session state the render shows. *)
Inductive SessionState : Type := Idle | Recording | Paused | Stopped.

Definition sessionState (s : State) : SessionState :=
  if truthy (recordedUri s) then Stopped
  else if isRecording s then (if isPaused s then Paused else Recording)
  else Idle.

(** Events that start, close or discard a session. *)
Definition is_reset (ev : Event) : bool :=
  match ev with
  | PressStart _ | PressRecordAgain _ | PressSave _ | PressClose _ => true
  | _ => false
  end.

Definition is_tick (ev : Event) : bool :=
  match ev with
  | TimerTick _ _ => true
  | _ => false
  end.

(** ** A well-behaved device, for scenarios *)

Definition startOk : StartEnv := mkStartEnv (Some true) true false true true true true.
Definition stopWith (u : option string) : StopEnv := mkStopEnv true u true.
Definition tickOk : Event := TimerTick true (stopWith (Some "file:///rec.m4a")).
Definition closeOk : CloseEnv := mkCloseEnv true true.
Definition playOk : PlayEnv := mkPlayEnv true true true true.

(** ** Proof automation: unfold the handlers, then split on whatever a
    conditional is stuck on. *)

Ltac unfold_model :=
  cbv beta iota zeta delta
    [next outputs step exec handled trace handler effects uriEffect
     recordingEffects replaceAnswer mounted initial requestPermissions
     startRecording pauseRecording resumeRecording stopRecording timerTick
     warningTimeout meteringTick pollPlayback playRecording pausePlayback
     togglePlay cleanupRecording handleClose handleSave recordAgain
     ret bind throw try_catch emit update pending call call_value when
     set_isRecording set_isPaused set_duration set_recordedUri
     set_showWarning set_hasPermission set_audioLevel set_isPlaying
     set_timerRef set_meteringRef set_pendingTimeouts
     st_permission st_modeOk st_statusBefore st_stopOk st_prepareOk
     st_recordOk st_statusAfter sp_stopOk sp_uri sp_replaceOk
     pl_pauseOk pl_seekOk pl_modeOk pl_playOk cl_stopOk cl_pauseOk
     enabled sessionState is_reset is_tick
     fst snd negb andb orb Bool.eqb truthy uri_eqb app];
  cbn [isRecording isPaused duration recordedUri showWarning hasPermission
       audioLevel isPlaying timerRef meteringRef pendingTimeouts].

Ltac atomic_cond b :=
  lazymatch b with
  | context [if _ then _ else _] => fail
  | context [match _ with _ => _ end] => fail
  | _ => idtac
  end.

Ltac split_cond :=
  match goal with
  | |- context [if ?b then _ else _] =>
      atomic_cond b; first [is_var b; destruct b | destruct b eqn:?]
  | |- context [match ?x with Some _ => _ | None => _ end] =>
      atomic_cond x; first [is_var x; destruct x | destruct x eqn:?]
  | |- context [match ?x with EmptyString => _ | String _ _ => _ end] =>
      atomic_cond x; first [is_var x; destruct x | destruct x eqn:?]
  | H : context [if ?b then _ else _] |- _ =>
      atomic_cond b; first [is_var b; destruct b | destruct b eqn:?]
  | H : context [match ?x with Some _ => _ | None => _ end] |- _ =>
      atomic_cond x; first [is_var x; destruct x | destruct x eqn:?]
  | H : context [match ?x with EmptyString => _ | String _ _ => _ end] |- _ =>
      atomic_cond x; first [is_var x; destruct x | destruct x eqn:?]
  end.

Ltac run_model :=
  unfold_model; repeat (split_cond; unfold_model).

Ltac open_state s :=
  destruct s as [rec pau dur uri warn perm lvl play tref mref pend].

Ltac open_env :=
  repeat match goal with
  | e : StartEnv |- _ => destruct e
  | e : StopEnv |- _ => destruct e
  | e : PlayEnv |- _ => destruct e
  | e : CloseEnv |- _ => destruct e
  end.

Ltac nat_facts :=
  repeat match goal with
  | H : (_ =? _) = true |- _ => apply Nat.eqb_eq in H
  | H : (_ =? _) = false |- _ => apply Nat.eqb_neq in H
  | H : (_ <=? _) = true |- _ => apply Nat.leb_le in H
  | H : (_ <=? _) = false |- _ => apply Nat.leb_gt in H
  | H : (_ <? _) = true |- _ => apply Nat.ltb_lt in H
  | H : (_ <? _) = false |- _ => apply Nat.ltb_ge in H
  end.

Ltac consts := unfold MAX_DURATION, WARNING_DURATION in *.

Lemma MAX_DURATION_pos : 0 < MAX_DURATION.
Proof. unfold MAX_DURATION; lia. Qed.

Ltac fields :=
  cbn [isRecording isPaused duration recordedUri showWarning hasPermission
       audioLevel isPlaying timerRef meteringRef pendingTimeouts] in *.

(** ** What the effects do *)

Definition live (s : State) : bool := isRecording s && negb (isPaused s).

Definition deps_changed (prev nxt : State) : bool :=
  negb (Bool.eqb (isRecording prev) (isRecording nxt)
        && Bool.eqb (isPaused prev) (isPaused nxt)).

(** The only outputs of the effects. *)
Definition effect_output (x : Output) : Prop :=
  match x with
  | Dev (player_replace _) _ => True
  | ConsoleError _ _ => True
  | _ => False
  end.

Record effects_post (prev s1 s2 : State) (o2 : list Output) : Prop := {
  eff_isRecording : isRecording s2 = isRecording s1;
  eff_isPaused : isPaused s2 = isPaused s1;
  eff_duration : duration s2 = duration s1;
  eff_recordedUri : recordedUri s2 = recordedUri s1;
  eff_showWarning : showWarning s2 = showWarning s1;
  eff_pendingTimeouts : pendingTimeouts s2 = pendingTimeouts s1;
  eff_timerRef :
    timerRef s2 = if deps_changed prev s1 then live s1 else timerRef s1;
  eff_meteringRef :
    meteringRef s2 = if deps_changed prev s1 then live s1 else meteringRef s1;
  eff_outputs : Forall effect_output o2
}.

Lemma effects_spec : forall prev ok s1,
  effects_post prev s1
    (snd (fst (effects prev ok s1 []))) (snd (effects prev ok s1 [])).
Proof.
  intros prev ok s1. destruct prev, s1.
  unfold deps_changed, live; fields.
  run_model; split; fields; try reflexivity;
    repeat constructor.
Qed.

Lemma next_post : forall ev s,
  effects_post s (handled ev s) (next ev s)
    (snd (effects s (replaceAnswer ev) (handled ev s) [])).
Proof.
  intros ev s. unfold next, step.
  pose proof (effects_spec s (replaceAnswer ev) (handled ev s)) as H.
  destruct (effects s (replaceAnswer ev) (handled ev s) []) as [[r s2] o2].
  exact H.
Qed.

Lemma outputs_trace : forall ev s,
  outputs ev s
  = trace ev s ++ snd (effects s (replaceAnswer ev) (handled ev s) []).
Proof.
  intros ev s. unfold outputs, step.
  destruct (effects s (replaceAnswer ev) (handled ev s) []) as [[r s2] o2].
  reflexivity.
Qed.

(** ** The invariant of the reachable states *)

Record Inv (s : State) : Prop := mkInv {
  inv_timer : timerRef s = live s;
  inv_metering : meteringRef s = live s;
  inv_uri : isRecording s = true -> truthy (recordedUri s) = false;
  inv_duration : duration s < MAX_DURATION
}.

Lemma Inv_mounted : forall perm modeOk, Inv (mounted perm modeOk).
Proof.
  intros perm modeOk; split; unfold live; run_model;
    try reflexivity; try discriminate; unfold MAX_DURATION; lia.
Qed.

(** What a handler alone preserves: when it leaves [isRecording] and
    [isPaused] as they were, the interval refs are still right. *)
Lemma handled_Inv : forall s ev,
  Inv s ->
  (deps_changed s (handled ev s) = false ->
     timerRef (handled ev s) = live (handled ev s)
     /\ meteringRef (handled ev s) = live (handled ev s))
  /\ (isRecording (handled ev s) = true ->
        truthy (recordedUri (handled ev s)) = false)
  /\ duration (handled ev s) < MAX_DURATION.
Proof.
  intros s ev [Ht Hm Hu Hd].
  remember (handled ev s) as h eqn:E. revert h E.
  open_state s. unfold live, deps_changed in *; fields. subst tref mref.
  destruct ev; open_env; run_model; intros h ->; fields;
    (split; [intros Hc; split; revert Hc; run_model; intros Hc;
             first [discriminate Hc | reflexivity] |]);
    (split; [intros Hr; first [discriminate Hr | exact (Hu Hr) | reflexivity] |]);
    nat_facts;
    first [assumption | apply MAX_DURATION_pos | consts; lia].
Qed.

Lemma Inv_next : forall s ev, Inv s -> Inv (next ev s).
Proof.
  intros s ev Hinv.
  destruct (handled_Inv s ev Hinv) as (Href & Huri & Hdur).
  destruct (next_post ev s) as [Er Ep Ed Eu _ _ Et Em _].
  split; unfold live in *.
  - rewrite Et, Er, Ep.
    destruct (deps_changed s (handled ev s)); [reflexivity | apply Href; reflexivity].
  - rewrite Em, Er, Ep.
    destruct (deps_changed s (handled ev s)); [reflexivity | apply Href; reflexivity].
  - rewrite Er, Eu. exact Huri.
  - rewrite Ed. exact Hdur.
Qed.

Lemma reachable_Inv : forall s, reachable s -> Inv s.
Proof.
  induction 1 as [perm modeOk | s ev _ IH _].
  - apply Inv_mounted.
  - apply Inv_next, IH.
Qed.

Lemma reachable_run : forall evs s,
  reachable s -> all_enabled evs s = true -> reachable (run evs s).
Proof.
  induction evs as [| ev rest IH]; intros s Hs Hen; cbn [run all_enabled] in *.
  - exact Hs.
  - apply andb_true_iff in Hen as [He Hrest].
    apply IH; [apply reachable_step; assumption | exact Hrest].
Qed.

Lemma reachable_duration : forall s, reachable s -> duration s < MAX_DURATION.
Proof. intros s Hs; apply inv_duration, reachable_Inv, Hs. Qed.

(** A state that shows Recording has both intervals live and no artifact. *)
Lemma Recording_fields : forall s,
  Inv s -> sessionState s = Recording ->
  isRecording s = true /\ isPaused s = false /\ truthy (recordedUri s) = false
  /\ timerRef s = true /\ meteringRef s = true.
Proof.
  intros s [Ht Hm _ _]; open_state s; unfold live in *; fields; subst tref mref.
  unfold sessionState; fields.
  destruct (truthy uri), rec, pau; cbn; intros H; try discriminate H;
    repeat split; reflexivity.
Qed.

(** Conversely the duration timer is live only while Recording is shown. *)
Lemma timer_live_Recording : forall s,
  Inv s -> timerRef s = true -> sessionState s = Recording.
Proof.
  intros s [Ht _ Hu _]; open_state s; unfold live in *; fields; subst tref.
  unfold sessionState; fields. intros H.
  apply andb_true_iff in H as [Hr Hp]; subst rec.
  rewrite (Hu eq_refl). destruct pau; [discriminate Hp | reflexivity].
Qed.

(** ** How one step changes the duration *)

Lemma handled_duration : forall s ev,
  duration (handled ev s) = duration s
  \/ (exists e, ev = TimerTick true e
        /\ duration (handled ev s) = S (duration s)
        /\ S (duration s) < MAX_DURATION)
  \/ (is_reset ev = true /\ duration (handled ev s) = 0).
Proof.
  intros s ev.
  remember (handled ev s) as h eqn:E. revert h E. open_state s.
  destruct ev; open_env; run_model; intros h ->; fields;
    first [ left; reflexivity
          | right; right; split; reflexivity
          | right; left; eexists; split;
            [reflexivity | nat_facts; rewrite Nat.add_1_r in *; auto] ].
Qed.

Lemma step_duration : forall s ev,
  duration (next ev s) = duration s
  \/ (exists e, ev = TimerTick true e
        /\ duration (next ev s) = S (duration s)
        /\ S (duration s) < MAX_DURATION)
  \/ (is_reset ev = true /\ duration (next ev s) = 0).
Proof.
  intros s ev. rewrite (eff_duration _ _ _ _ (next_post ev s)).
  apply handled_duration.
Qed.

(** ** From handlers to steps *)

Lemma next_sessionState : forall ev s,
  sessionState (next ev s) = sessionState (handled ev s).
Proof.
  intros ev s. destruct (next_post ev s) as [Er Ep _ Eu _ _ _ _ _].
  unfold sessionState. rewrite Er, Ep, Eu. reflexivity.
Qed.

Lemma next_duration : forall ev s, duration (next ev s) = duration (handled ev s).
Proof. intros ev s. apply (eff_duration _ _ _ _ (next_post ev s)). Qed.

Lemma trace_outputs : forall ev s x, In x (trace ev s) -> In x (outputs ev s).
Proof.
  intros ev s x H. rewrite outputs_trace. apply in_or_app. left. exact H.
Qed.

Lemma outputs_inv : forall ev s x,
  In x (outputs ev s) -> In x (trace ev s) \/ effect_output x.
Proof.
  intros ev s x H. rewrite outputs_trace in H.
  apply in_app_or in H as [H | H]; [left; exact H | right].
  pose proof (eff_outputs _ _ _ _ (next_post ev s)) as F.
  rewrite Forall_forall in F. apply F, H.
Qed.

(** After a step the interval refs are live exactly while the component
    records and is not paused, whatever the handler did to them. *)
Lemma next_timerRef : forall ev s,
  Inv s -> timerRef (next ev s) = live (handled ev s).
Proof.
  intros ev s Hinv. pose proof (Inv_next s ev Hinv) as [Ht _ _ _].
  rewrite Ht. unfold live.
  destruct (next_post ev s) as [Er Ep _ _ _ _ _ _ _]. rewrite Er, Ep.
  reflexivity.
Qed.

(** One callback of the duration timer while Recording is shown and the
    device is recording. *)
Lemma tick_below_cap : forall s e,
  Inv s -> sessionState s = Recording -> S (duration s) < MAX_DURATION ->
  duration (next (TimerTick true e) s) = S (duration s)
  /\ sessionState (next (TimerTick true e) s) = Recording
  /\ (forall ok, ~ In (Dev recorder_stop ok) (outputs (TimerTick true e) s)).
Proof.
  intros s e Hinv Hrec Hlt.
  destruct (Recording_fields s Hinv Hrec) as (Hr & Hp & Hu & _).
  rewrite next_duration, next_sessionState.
  assert (Htr : duration (handled (TimerTick true e) s) = S (duration s)
                /\ sessionState (handled (TimerTick true e) s) = Recording
                /\ forall ok, ~ In (Dev recorder_stop ok) (trace (TimerTick true e) s)).
  { clear Hinv Hrec. revert Hlt.
    remember (handled (TimerTick true e) s) as h eqn:E.
    remember (trace (TimerTick true e) s) as t eqn:Et. revert h t E Et.
    open_state s; fields; subst rec pau. open_env.
    replace (S dur) with (dur + 1) by lia.
    run_model; intros h t -> -> Hlt; fields; nat_facts;
      try (exfalso; consts; lia);
      (split; [reflexivity | split;
        [ unfold sessionState; fields; unfold truthy in *; rewrite Hu; reflexivity
        | intros ok; cbn [In]; intros H;
          repeat match goal with
          | H : _ \/ _ |- _ => destruct H as [H | H]
          end; first [discriminate H | contradiction H] ]]). }
  destruct Htr as (Hd & Hs & Ho). split; [exact Hd | split; [exact Hs |]].
  intros ok H. apply outputs_inv in H as [H | H]; [exact (Ho ok H) | exact H].
Qed.

Lemma tick_at_cap : forall s e,
  Inv s -> sessionState s = Recording -> S (duration s) = MAX_DURATION ->
  In (Dev recorder_stop (sp_stopOk e)) (outputs (TimerTick true e) s)
  /\ duration (next (TimerTick true e) s) = duration s
  /\ (sp_stopOk e = true ->
        isRecording (next (TimerTick true e) s) = false
        /\ timerRef (next (TimerTick true e) s) = false
        /\ (truthy (sp_uri e) = true ->
              recordedUri (next (TimerTick true e) s) = sp_uri e)
        /\ (truthy (sp_uri e) = false ->
              recordedUri (next (TimerTick true e) s) = recordedUri s)).
Proof.
  intros s e Hinv Hrec Heq.
  destruct (Recording_fields s Hinv Hrec) as (Hr & Hp & Hu & _).
  rewrite next_duration, (next_timerRef _ _ Hinv).
  destruct (next_post (TimerTick true e) s) as [Er _ _ Eu _ _ _ _ _].
  rewrite Er, Eu. clear Er Eu.
  assert (Htr : In (Dev recorder_stop (sp_stopOk e)) (trace (TimerTick true e) s)
     /\ duration (handled (TimerTick true e) s) = duration s
     /\ (sp_stopOk e = true ->
         isRecording (handled (TimerTick true e) s) = false
         /\ live (handled (TimerTick true e) s) = false
         /\ (truthy (sp_uri e) = true ->
               recordedUri (handled (TimerTick true e) s) = sp_uri e)
         /\ (truthy (sp_uri e) = false ->
               recordedUri (handled (TimerTick true e) s) = recordedUri s))).
  { clear Hinv Hrec Hu. revert Heq.
    remember (handled (TimerTick true e) s) as h eqn:E.
    remember (trace (TimerTick true e) s) as t eqn:Et. revert h t E Et.
    open_state s; fields; subst rec pau. open_env. unfold live.
    replace (S dur) with (dur + 1) by lia.
    run_model; intros h t -> -> Heq; fields; nat_facts;
      try (exfalso; consts; lia);
      (split; [cbn [In]; auto | split; [reflexivity |]]);
      intros Hok; try discriminate Hok;
      repeat split; try reflexivity; intros Ht; discriminate Ht. }
  destruct Htr as (Ho & Hd & Hrest).
  split; [apply trace_outputs, Ho | split; [exact Hd | exact Hrest]].
Qed.

Definition ticks (e : StopEnv) (n : nat) : list Event :=
  repeat (TimerTick true e) n.

Lemma ticks_count : forall e n s,
  Inv s -> sessionState s = Recording -> duration s + n < MAX_DURATION ->
  duration (run (ticks e n) s) = duration s + n
  /\ sessionState (run (ticks e n) s) = Recording
  /\ Inv (run (ticks e n) s).
Proof.
  intros e n; induction n as [| n IH]; intros s Hinv Hrec Hlt;
    cbn [ticks repeat run].
  - rewrite Nat.add_0_r; auto.
  - destruct (tick_below_cap s e Hinv Hrec) as (Hd & Hs & _); [lia |].
    destruct (IH (next (TimerTick true e) s)) as (Hd' & Hs' & Hi').
    + apply Inv_next, Hinv.
    + exact Hs.
    + rewrite Hd; lia.
    + fold (ticks e n). rewrite Hd', Hd. split; [lia | split; assumption].
Qed.

(** A start that leaves the component Recording began a fresh session. *)
Lemma start_Recording : forall s st,
  enabled s (PressStart st) = true ->
  sessionState (next (PressStart st) s) = Recording ->
  duration (next (PressStart st) s) = 0.
Proof.
  intros s st Hen Hrec.
  rewrite next_duration. rewrite next_sessionState in Hrec.
  revert Hen Hrec.
  remember (handled (PressStart st) s) as h eqn:E. revert h E.
  open_state s. open_env.
  run_model; intros h ->; fields; run_model; intros;
    try reflexivity; discriminate.
Qed.

(** handleSave fires onSave only under its guard. *)
Lemma save_outputs : forall s ce u d,
  In (OnSave u d) (outputs (PressSave ce) s) ->
  recordedUri s = Some u /\ truthy (Some u) = true
  /\ d = duration s /\ 0 < d.
Proof.
  intros s ce u d H.
  apply outputs_inv in H as [H | H]; [| contradiction H].
  revert H. remember (trace (PressSave ce) s) as t eqn:Et. revert t Et.
  open_state s. open_env.
  run_model; intros t ->; cbn [In]; intros H;
    repeat match goal with
    | H : _ \/ _ |- _ => destruct H as [H | H]
    | H : False |- _ => destruct H
    | H : OnSave _ _ = OnSave _ _ |- _ => inversion H; subst; clear H
    end; try discriminate;
    nat_facts; repeat split; try reflexivity; assumption.
Qed.

Lemma save_fires : forall s ce u,
  recordedUri s = Some u -> truthy (Some u) = true -> 0 < duration s ->
  In (OnSave u (duration s)) (outputs (PressSave ce) s).
Proof.
  intros s ce u Hu Ht Hd. apply trace_outputs.
  revert Ht Hd. remember (trace (PressSave ce) s) as t eqn:Et. revert t Et.
  open_state s; fields; subst uri. open_env.
  run_model; intros t -> Ht Hd; cbn [In]; try discriminate Ht;
    nat_facts; try lia; auto.
Qed.

(** ** A concrete session, for scenarios *)

Definition mounted0 : State := mounted (Some true) true.
Definition uri0 : string := "file:///rec.m4a".
Definition stop0 : StopEnv := stopWith (Some uri0).

(** The session started on a well-behaved device and ticked [n] times. *)
Definition session (n : nat) : State :=
  run (PressStart startOk :: ticks stop0 n) mounted0.

Lemma session_reachable : forall n,
  all_enabled (PressStart startOk :: ticks stop0 n) mounted0 = true ->
  reachable (session n).
Proof.
  intros n H. apply reachable_run; [apply reachable_mounted | exact H].
Qed.

(** ** C1: auto-stop at the duration cap *)

(** C1, as stated, fails: the session that is started and ticked without a
    manual stop is stopped by its 300th tick with elapsedSeconds at 299, and
    no reachable state has elapsedSeconds equal to 300. *)
Lemma auto_stop_duration_is_not_cap :
  duration (session 300) = 299
  /\ sessionState (session 300) = Stopped
  /\ (forall s, reachable s -> duration s <> MAX_DURATION).
Proof.
  split; [vm_compute; reflexivity | split; [vm_compute; reflexivity |]].
  intros s Hs. pose proof (reachable_duration s Hs). lia.
Qed.

(** The session of C1 with the last tick number as a variable. *)
Lemma auto_stop_after : forall last s0 st e,
  S last = MAX_DURATION ->
  reachable s0 ->
  enabled s0 (PressStart st) = true ->
  sessionState (next (PressStart st) s0) = Recording ->
  (forall n, n < MAX_DURATION ->
     duration (run (ticks e n) (next (PressStart st) s0)) = n
     /\ sessionState (run (ticks e n) (next (PressStart st) s0)) = Recording)
  /\ In (Dev recorder_stop (sp_stopOk e))
        (outputs (TimerTick true e) (run (ticks e last) (next (PressStart st) s0)))
  /\ duration (next (TimerTick true e)
                 (run (ticks e last) (next (PressStart st) s0))) = last
  /\ (sp_stopOk e = true ->
        sessionState (next (TimerTick true e)
                        (run (ticks e last) (next (PressStart st) s0))) <> Recording
        /\ timerRef (next (TimerTick true e)
                       (run (ticks e last) (next (PressStart st) s0))) = false
        /\ (forall d e',
              enabled (next (TimerTick true e)
                         (run (ticks e last) (next (PressStart st) s0)))
                (TimerTick d e') = false)
        /\ (truthy (sp_uri e) = true ->
              sessionState (next (TimerTick true e)
                              (run (ticks e last) (next (PressStart st) s0)))
              = Stopped)).
Proof.
  intros last s0 st e Hlast Hs0 Hen Hrec.
  assert (Hinv1 : Inv (next (PressStart st) s0))
    by (apply Inv_next, reachable_Inv, Hs0).
  assert (Hd1 : duration (next (PressStart st) s0) = 0)
    by (apply start_Recording; assumption).
  clear Hen Hs0. revert Hrec Hinv1 Hd1.
  generalize (next (PressStart st) s0). intros s1 Hrec Hinv1 Hd1.
  assert (Hticks : forall n, n < MAX_DURATION ->
            duration (run (ticks e n) s1) = n
            /\ sessionState (run (ticks e n) s1) = Recording
            /\ Inv (run (ticks e n) s1)).
  { intros n Hn. destruct (ticks_count e n s1 Hinv1 Hrec) as (A & B & C).
    - rewrite Hd1; exact Hn.
    - rewrite Hd1 in A. auto. }
  destruct (Hticks last) as (Dl & Rl & Il); [rewrite <- Hlast; apply Nat.lt_succ_diag_r |].
  revert Dl Rl Il. generalize (run (ticks e last) s1). intros sl Dl Rl Il.
  destruct (tick_at_cap sl e Il Rl) as (Hstop & Hdur & Hok).
  { rewrite Dl; exact Hlast. }
  revert Hstop Hdur Hok. generalize (next (TimerTick true e) sl).
  intros sm Hstop Hdur Hok.
  split; [| split; [| split]].
  - intros n Hn. destruct (Hticks n Hn) as (A & B & _). auto.
  - exact Hstop.
  - rewrite Hdur. exact Dl.
  - intros Hsok. destruct (Hok Hsok) as (Hr & Ht & Hu1 & Hu2).
    assert (Hnr : sessionState sm <> Recording).
    { unfold sessionState. rewrite Hr. destruct (truthy (recordedUri sm)); discriminate. }
    split; [exact Hnr | split; [exact Ht | split]].
    + intros d e'. cbn [enabled]. exact Ht.
    + intros Hu. unfold sessionState. rewrite (Hu1 Hu), Hu. reflexivity.
Qed.

(** C1 (amended).  In every reachable state elapsedSeconds >= 300 implies
    Stopped (no reachable state has elapsedSeconds >= 300).  A session that
    is started and ticked, with the device recording and no manual stop,
    counts 1, 2, ... up to 299 while Recording; its next tick invokes stop()
    and leaves elapsedSeconds at 299; when the device stop returns, the
    component no longer shows Recording, the duration timer is cleared so
    that no further tick occurs, and the session is Stopped when a URI came
    back. *)
Theorem auto_stop_at_cap : forall s0 st e,
  reachable s0 ->
  enabled s0 (PressStart st) = true ->
  sessionState (next (PressStart st) s0) = Recording ->
  (forall s, reachable s -> MAX_DURATION <= duration s -> sessionState s = Stopped)
  /\ (forall n, n < MAX_DURATION ->
        duration (run (ticks e n) (next (PressStart st) s0)) = n
        /\ sessionState (run (ticks e n) (next (PressStart st) s0)) = Recording)
  /\ In (Dev recorder_stop (sp_stopOk e))
        (outputs (TimerTick true e) (run (ticks e 299) (next (PressStart st) s0)))
  /\ duration (next (TimerTick true e)
                 (run (ticks e 299) (next (PressStart st) s0))) = 299
  /\ (sp_stopOk e = true ->
        sessionState (next (TimerTick true e)
                        (run (ticks e 299) (next (PressStart st) s0))) <> Recording
        /\ timerRef (next (TimerTick true e)
                       (run (ticks e 299) (next (PressStart st) s0))) = false
        /\ (forall d e',
              enabled (next (TimerTick true e)
                         (run (ticks e 299) (next (PressStart st) s0)))
                (TimerTick d e') = false)
        /\ (truthy (sp_uri e) = true ->
              sessionState (next (TimerTick true e)
                              (run (ticks e 299) (next (PressStart st) s0)))
              = Stopped)).
Proof.
  intros s0 st e Hs0 Hen Hrec. split.
  - intros s Hs Hge. pose proof (reachable_duration s Hs) as Hlt.
    exfalso. exact (Nat.lt_irrefl _ (Nat.lt_le_trans _ _ _ Hlt Hge)).
  - exact (auto_stop_after 299 s0 st e eq_refl Hs0 Hen Hrec).
Qed.

Lemma auto_stop_at_cap_witness :
  duration (next (TimerTick true stop0)
              (run (ticks stop0 299) (next (PressStart startOk) mounted0))) = 299
  /\ timerRef (next (TimerTick true stop0)
                 (run (ticks stop0 299) (next (PressStart startOk) mounted0))) = false
  /\ sessionState (next (TimerTick true stop0)
                      (run (ticks stop0 299) (next (PressStart startOk) mounted0)))
     = Stopped.
Proof.
  destruct (auto_stop_at_cap mounted0 startOk stop0
              (reachable_mounted (Some true) true) eq_refl eq_refl)
    as (_ & _ & _ & Hd & Hok).
  destruct (Hok eq_refl) as (_ & Ht & _ & Hs).
  split; [exact Hd | split; [exact Ht | exact (Hs eq_refl)]].
Defined.

(** ** C10: the duration never exceeds 299 *)

(** C10.  In every reachable state elapsedSeconds is at most 299, so
    handleSave never reports more than 299.  The tick that would raise the
    duration to 300 invokes stop() and keeps 299, and the maximal-length
    session that was stopped this way saves its artifact with duration 299. *)
Theorem duration_cap_off_by_one : forall s,
  reachable s ->
  duration s <= 299
  /\ (forall ce u d, In (OnSave u d) (outputs (PressSave ce) s) -> d <= 299)
  /\ (forall e, sessionState s = Recording -> duration s = 299 ->
        In (Dev recorder_stop (sp_stopOk e)) (outputs (TimerTick true e) s)
        /\ duration (next (TimerTick true e) s) = 299
        /\ (forall u ce, sp_stopOk e = true -> sp_uri e = Some u ->
              truthy (Some u) = true ->
              sessionState (next (TimerTick true e) s) = Stopped
              /\ In (OnSave u 299) (outputs (PressSave ce) (next (TimerTick true e) s)))).
Proof.
  intros s Hs. pose proof (reachable_Inv s Hs) as Hinv.
  assert (Hle : duration s <= 299).
  { pose proof (inv_duration s Hinv) as H. unfold MAX_DURATION in H. lia. }
  split; [exact Hle | split].
  - intros ce u d H. apply save_outputs in H as (_ & _ & -> & _). exact Hle.
  - intros e Hrec Hd.
    destruct (tick_at_cap s e Hinv Hrec) as (Hstop & Hdur & Hok).
    { rewrite Hd; reflexivity. }
    rewrite Hd in Hdur.
    split; [exact Hstop | split; [exact Hdur |]].
    intros u ce Hsok Hu Ht. destruct (Hok Hsok) as (_ & _ & Hu1 & _).
    rewrite Hu in Hu1. specialize (Hu1 Ht).
    split.
    + unfold sessionState. rewrite Hu1, Ht. reflexivity.
    + rewrite <- Hdur. apply save_fires; [exact Hu1 | exact Ht |].
      rewrite Hdur. apply Nat.lt_0_succ.
Qed.

Lemma session_299_enabled :
  all_enabled (PressStart startOk :: ticks stop0 299) mounted0 = true.
Proof. vm_compute. reflexivity. Qed.

Lemma duration_cap_off_by_one_witness :
  duration (session 299) <= 299
  /\ In (OnSave uri0 299)
        (outputs (PressSave closeOk) (next (TimerTick true stop0) (session 299))).
Proof.
  destruct (duration_cap_off_by_one (session 299)
              (session_reachable 299 session_299_enabled))
    as (Hle & _ & Htick).
  split; [exact Hle |].
  assert (Hrec : sessionState (session 299) = Recording)
    by (vm_compute; reflexivity).
  assert (Hd : duration (session 299) = 299) by (vm_compute; reflexivity).
  destruct (Htick stop0 Hrec Hd) as (_ & _ & Hsave).
  exact (proj2 (Hsave uri0 closeOk eq_refl eq_refl eq_refl)).
Defined.

(** ** C3: when the duration changes *)

(** C3, as stated, fails: in a Stopped session with elapsedSeconds 5 the
    Record Again button is offered and puts the duration back to 0, so the
    duration decreases, and it changes while the session is Stopped. *)
Lemma record_again_resets_duration :
  let s := next (PressStop stop0) (session 5) in
  reachable s
  /\ sessionState s = Stopped
  /\ duration s = 5
  /\ enabled s (PressRecordAgain true) = true
  /\ duration (next (PressRecordAgain true) s) = 0.
Proof.
  cbv zeta. split.
  - apply reachable_step.
    + apply session_reachable. vm_compute. reflexivity.
    + vm_compute. reflexivity.
  - repeat split; vm_compute; reflexivity.
Qed.

(** C3 (amended).  One step of the recorder changes elapsedSeconds in two
    ways only: a duration tick adds exactly 1, and only while the session
    is Recording; start, record-again, save and close put it back to 0.
    Every other step (pause, resume, stop, playback, metering, the warning
    timeout) leaves it as it is, so it never decreases between two resets
    and is frozen while Paused or Stopped. *)
Theorem duration_changes : forall s ev,
  reachable s ->
  enabled s ev = true ->
  (duration (next ev s) = duration s
   \/ (is_tick ev = true /\ sessionState s = Recording
       /\ duration (next ev s) = S (duration s))
   \/ (is_reset ev = true /\ duration (next ev s) = 0))
  /\ (is_reset ev = false -> duration s <= duration (next ev s))
  /\ (is_reset ev = false -> sessionState s <> Recording ->
        duration (next ev s) = duration s).
Proof.
  intros s ev Hs Hen. pose proof (reachable_Inv s Hs) as Hinv.
  assert (Htick : forall e, ev = TimerTick true e -> sessionState s = Recording).
  { intros e ->. cbn [enabled] in Hen. apply timer_live_Recording; assumption. }
  destruct (step_duration s ev) as [H | [(e & He & H & _) | (Hr & H)]].
  - split; [left; exact H | split; intros; rewrite H; auto].
  - split; [| split].
    + right; left. split; [rewrite He; reflexivity | split; [exact (Htick e He) | exact H]].
    + intros _. rewrite H. apply Nat.le_succ_diag_r.
    + intros _ Hn. elim Hn. exact (Htick e He).
  - split; [right; right; split; assumption | split; intros Hf; rewrite Hr in Hf; discriminate Hf].
Qed.

Lemma session_5_enabled :
  all_enabled (PressStart startOk :: ticks stop0 5) mounted0 = true.
Proof. vm_compute. reflexivity. Qed.

Lemma duration_changes_witness :
  duration (session 5) <= duration (next (TimerTick true stop0) (session 5))
  /\ duration (next (PollPlayback false) (next (PressPause true) (session 5)))
     = duration (next (PressPause true) (session 5)).
Proof.
  split.
  - exact (proj1 (proj2 (duration_changes (session 5) (TimerTick true stop0)
                           (session_reachable 5 session_5_enabled) eq_refl))
             eq_refl).
  - refine (proj2 (proj2 (duration_changes (next (PressPause true) (session 5))
                            (PollPlayback false) _ eq_refl)) eq_refl _).
    + apply reachable_step;
        [exact (session_reachable 5 session_5_enabled) | reflexivity].
    + vm_compute. discriminate.
Defined.

(** ** C2: a device that contradicts the assumed state *)






Lemma session_3_enabled :
  all_enabled (PressStart startOk :: ticks stop0 3) mounted0 = true.
Proof. vm_compute. reflexivity. Qed.


(** ** C9: a stop that returns no artifact *)

(** stopRecording when the device stop returned without a URI. *)
Lemma stop_without_uri_handled : forall s e,
  sp_stopOk e = true -> truthy (sp_uri e) = false ->
  trace (PressStop e) s
  = [Dev recorder_stop true; ConsoleWarn "No URI returned from recorder"]
  /\ handled (PressStop e) s = set_isPaused false (set_isRecording false s).
Proof.
  intros s [ok u rep] Hok Hu. cbn [sp_stopOk sp_uri] in *. subst ok.
  unfold trace, handled, handler, stopRecording, try_catch, bind, call.
  cbn [sp_stopOk sp_uri]. rewrite Hu. split; reflexivity.
Qed.

(** C9, as stated, fails: after a stop without a URI the component is not
    in a Stopped state with a null artifact.  It shows the record view with
    the start button (Idle); stopped right after the start, the state is
    the very state the recorder had before the session began. *)
Lemma stop_without_uri_is_idle :
  sessionState (next (PressStop (stopWith None)) (session 3)) = Idle
  /\ enabled (next (PressStop (stopWith None)) (session 3)) (PressStart startOk) = true
  /\ enabled (next (PressStop (stopWith None)) (session 3)) (PressSave closeOk) = false
  /\ next (PressStop (stopWith None)) (session 0) = mounted0.
Proof. repeat split; vm_compute; reflexivity. Qed.

(** C9 (amended).  When stop() completes but the device returns no URI, a
    console warning is written and nothing is shown to the user;
    isRecording and isPaused are cleared, the artifact stays null and the
    duration is kept.  The component then shows the record view with the
    start button (Idle, not Stopped), where the save action is not
    offered; and handleSave, whenever it runs, fires onSave only with a
    non-null, non-empty artifact and a positive duration. *)
Theorem stop_without_uri : forall s e,
  reachable s ->
  enabled s (PressStop e) = true ->
  sp_stopOk e = true ->
  truthy (sp_uri e) = false ->
  In (ConsoleWarn "No URI returned from recorder") (outputs (PressStop e) s)
  /\ (forall title cause, ~ In (ShowAlert title cause) (outputs (PressStop e) s))
  /\ isRecording (next (PressStop e) s) = false
  /\ isPaused (next (PressStop e) s) = false
  /\ truthy (recordedUri (next (PressStop e) s)) = false
  /\ duration (next (PressStop e) s) = duration s
  /\ sessionState (next (PressStop e) s) = Idle
  /\ (forall ce, enabled (next (PressStop e) s) (PressSave ce) = false)
  /\ (forall s' ce u d,
        In (OnSave u d) (outputs (PressSave ce) s') ->
        recordedUri s' = Some u /\ u <> "" /\ d = duration s' /\ 0 < d).
Proof.
  intros s e Hs Hen Hok Hu.
  destruct (stop_without_uri_handled s e Hok Hu) as (Htr & Hh).
  destruct (next_post (PressStop e) s) as [Er Ep Ed Eu _ _ _ _ _].
  rewrite Hh in Er, Ep, Ed, Eu. cbn in Er, Ep, Ed, Eu.
  assert (Hfalsy : truthy (recordedUri s) = false).
  { cbn [enabled] in Hen. apply andb_true_iff in Hen as [Hen _].
    apply negb_true_iff in Hen. exact Hen. }
  split; [apply trace_outputs; rewrite Htr; right; left; reflexivity |].
  split.
  { intros title cause H. apply outputs_inv in H as [H | H]; [| exact H].
    rewrite Htr in H. destruct H as [H | [H | []]]; discriminate H. }
  split; [exact Er |]. split; [exact Ep |].
  split; [rewrite Eu; exact Hfalsy |]. split; [exact Ed |].
  split; [unfold sessionState; rewrite Er, Eu, Hfalsy; reflexivity |].
  split; [intros ce; cbn [enabled]; rewrite Eu; exact Hfalsy |].
  intros s' ce u d H. apply save_outputs in H as (H1 & H2 & H3 & H4).
  split; [exact H1 | split; [| split; assumption]].
  intros ->. discriminate H2.
Qed.

Lemma stop_without_uri_witness :
  sessionState (next (PressStop (stopWith None)) (session 3)) = Idle
  /\ duration (next (PressStop (stopWith None)) (session 3)) = duration (session 3).
Proof.
  destruct (stop_without_uri (session 3) (stopWith None)
              (session_reachable 3 session_3_enabled) eq_refl eq_refl eq_refl)
    as (_ & _ & _ & _ & _ & Hd & Hi & _).
  split; [exact Hi | exact Hd].
Defined.

(** ** C4: the one-shot warning *)

Definition is_SetTimeout (x : Output) : bool :=
  match x with
  | SetTimeout _ => true
  | _ => false
  end.

(** The step ran lines 224-226: it raised the warning and scheduled its
    timeout. *)
Definition warningRaised (ev : Event) (s : State) : bool :=
  existsb is_SetTimeout (outputs ev s).

(** How many steps of a run raise the warning. *)
Fixpoint warnings (evs : list Event) (s : State) : nat :=
  match evs with
  | [] => 0
  | ev :: rest =>
      (if warningRaised ev s then 1 else 0) + warnings rest (next ev s)
  end.

Definition is_WarningTimeout (ev : Event) : bool :=
  match ev with
  | WarningTimeout => true
  | _ => false
  end.

(** The tick that takes the duration to the warning threshold. *)
Definition threshold_tick (ev : Event) (s : State) : bool :=
  match ev with
  | TimerTick true _ => S (duration s) =? WARNING_DURATION
  | _ => false
  end.

Lemma handled_warning : forall s ev,
  existsb is_SetTimeout (trace ev s) = threshold_tick ev s
  /\ (threshold_tick ev s = true ->
        showWarning (handled ev s) = true
        /\ duration (handled ev s) = WARNING_DURATION)
  /\ (showWarning (handled ev s) = true ->
        showWarning s = true \/ threshold_tick ev s = true)
  /\ (is_WarningTimeout ev = false ->
        pendingTimeouts (handled ev s)
        = pendingTimeouts s ++ (if threshold_tick ev s then [3000%N] else [])).
Proof.
  intros s ev.
  remember (handled ev s) as h eqn:E.
  remember (trace ev s) as t eqn:Et. revert h t E Et.
  open_state s. unfold threshold_tick; fields.
  destruct ev; open_env;
    try replace (S dur) with (dur + 1) by apply eq_sym, Nat.add_1_r;
    run_model; intros h t -> ->; fields; cbn [existsb is_SetTimeout orb is_WarningTimeout];
    nat_facts;
    try (exfalso; consts; lia);
    (split; [reflexivity |]);
    (split; [intros H; first [discriminate H | split; [reflexivity | assumption]] |]);
    (split; [intros H; first [left; exact H | right; reflexivity | discriminate H] |]);
    intros H;
    first [discriminate H | exact (eq_sym (app_nil_r _)) | reflexivity].
Qed.

Lemma effect_outputs_no_timeout : forall o,
  Forall effect_output o -> existsb is_SetTimeout o = false.
Proof.
  induction 1 as [| x o Hx _ IH]; [reflexivity |].
  cbn [existsb]. rewrite IH.
  destruct x; try contradiction Hx; reflexivity.
Qed.

Lemma warningRaised_threshold : forall ev s,
  warningRaised ev s = threshold_tick ev s.
Proof.
  intros ev s. unfold warningRaised. rewrite outputs_trace, existsb_app.
  rewrite (effect_outputs_no_timeout _ (eff_outputs _ _ _ _ (next_post ev s))).
  rewrite orb_false_r. apply handled_warning.
Qed.

Lemma next_pendingTimeouts : forall ev s,
  is_WarningTimeout ev = false ->
  pendingTimeouts (next ev s)
  = pendingTimeouts s ++ (if warningRaised ev s then [3000%N] else []).
Proof.
  intros ev s H. rewrite (eff_pendingTimeouts _ _ _ _ (next_post ev s)).
  rewrite warningRaised_threshold. apply handled_warning. exact H.
Qed.

Definition no_reset (evs : list Event) : bool :=
  forallb (fun ev => negb (is_reset ev)) evs.

Definition no_timeout (evs : list Event) : bool :=
  forallb (fun ev => negb (is_WarningTimeout ev)) evs.

Lemma warnings_bound : forall evs s,
  no_reset evs = true ->
  warnings evs s <= if duration s <? WARNING_DURATION then 1 else 0.
Proof.
  induction evs as [| ev rest IH]; intros s Hnr; cbn [warnings].
  - apply Nat.le_0_l.
  - cbn [no_reset forallb] in Hnr. apply andb_true_iff in Hnr as [Hev Hrest].
    apply negb_true_iff in Hev. specialize (IH (next ev s) Hrest).
    rewrite warningRaised_threshold.
    destruct (handled_warning s ev) as (_ & Hth & _ & _).
    rewrite <- next_duration in Hth.
    destruct (threshold_tick ev s) eqn:Et.
    + destruct (Hth eq_refl) as (_ & Hd). rewrite Hd in IH.
      rewrite Nat.ltb_irrefl in IH.
      assert (Hlt : (duration s <? WARNING_DURATION) = true).
      { unfold threshold_tick in Et. destruct ev; try discriminate Et.
        destruct devIsRecording; [| discriminate Et].
        apply Nat.eqb_eq in Et. apply Nat.ltb_lt. rewrite <- Et.
        apply Nat.lt_succ_diag_r. }
      rewrite Hlt. lia.
    + cbn [Nat.add].
      destruct (step_duration s ev) as [H | [(e & _ & H & _) | (Hr & _)]].
      * rewrite H in IH. exact IH.
      * destruct (duration s <? WARNING_DURATION) eqn:Hlt.
        -- destruct (duration (next ev s) <? WARNING_DURATION); lia.
        -- apply Nat.ltb_ge in Hlt.
           assert (Hge : (duration (next ev s) <? WARNING_DURATION) = false).
           { apply Nat.ltb_ge. rewrite H. apply Nat.le_le_succ_r, Hlt. }
           rewrite Hge in IH. exact IH.
      * rewrite Hr in Hev. discriminate Hev.
Qed.

Lemma timeout_stays_pending : forall evs s,
  no_timeout evs = true ->
  enabled s WarningTimeout = true ->
  enabled (run evs s) WarningTimeout = true.
Proof.
  induction evs as [| ev rest IH]; intros s Hnt Hen; cbn [run].
  - exact Hen.
  - cbn [no_timeout forallb] in Hnt. apply andb_true_iff in Hnt as [Hev Hrest].
    apply negb_true_iff in Hev. apply IH; [exact Hrest |].
    cbn [enabled] in *. rewrite (next_pendingTimeouts ev s Hev).
    destruct (pendingTimeouts s); [discriminate Hen | reflexivity].
Qed.

Lemma timeout_clears_warning : forall s,
  showWarning (next WarningTimeout s) = false
  /\ pendingTimeouts (next WarningTimeout s) = tl (pendingTimeouts s).
Proof.
  intros s.
  rewrite (eff_showWarning _ _ _ _ (next_post WarningTimeout s)).
  rewrite (eff_pendingTimeouts _ _ _ _ (next_post WarningTimeout s)).
  split; reflexivity.
Qed.

(** The duration tick at 269 seconds raises the warning, whatever else the
    state holds. *)
Lemma threshold_tick_raises : forall s e,
  S (duration s) = WARNING_DURATION ->
  warningRaised (TimerTick true e) s = true
  /\ showWarning (next (TimerTick true e) s) = true
  /\ duration (next (TimerTick true e) s) = WARNING_DURATION
  /\ pendingTimeouts (next (TimerTick true e) s) = pendingTimeouts s ++ [3000%N]
  /\ enabled (next (TimerTick true e) s) WarningTimeout = true.
Proof.
  intros s e Hd.
  assert (Hr : warningRaised (TimerTick true e) s = true).
  { rewrite warningRaised_threshold. cbn [threshold_tick]. apply Nat.eqb_eq, Hd. }
  assert (Hp : pendingTimeouts (next (TimerTick true e) s)
               = pendingTimeouts s ++ [3000%N]).
  { rewrite (next_pendingTimeouts (TimerTick true e) s eq_refl), Hr. reflexivity. }
  destruct (handled_warning s (TimerTick true e)) as (_ & Hth & _ & _).
  rewrite <- (eff_showWarning _ _ _ _ (next_post (TimerTick true e) s)) in Hth.
  rewrite <- next_duration in Hth.
  rewrite <- warningRaised_threshold in Hth. destruct (Hth Hr) as (Hs & Hn).
  split; [exact Hr | split; [exact Hs | split; [exact Hn | split; [exact Hp |]]]].
  cbn [enabled]. rewrite Hp. destruct (pendingTimeouts s); reflexivity.
Qed.

(** The number of warnings raised by [n] ticks of a Recording session that
    stays below the cap: one when the ticks cross the threshold, none
    otherwise. *)
Lemma warnings_ticks : forall e n s,
  Inv s -> sessionState s = Recording -> duration s + n < MAX_DURATION ->
  warnings (ticks e n) s
  = if (duration s <? WARNING_DURATION) && (WARNING_DURATION <=? duration s + n)
    then 1 else 0.
Proof.
  intros e n; induction n as [| n IH]; intros s Hinv Hrec Hlt;
    cbn [ticks repeat warnings].
  - destruct (Nat.ltb_spec (duration s) WARNING_DURATION) as [H1 | H1];
      destruct (Nat.leb_spec WARNING_DURATION (duration s + 0)) as [H2 | H2];
      cbn [andb]; try reflexivity. exfalso. lia.
  - fold (ticks e n).
    destruct (tick_below_cap s e Hinv Hrec) as (Hd & Hs & _); [lia |].
    rewrite (IH (next (TimerTick true e) s) (Inv_next _ _ Hinv) Hs)
      by (rewrite Hd; lia).
    rewrite warningRaised_threshold, Hd. cbn [threshold_tick].
    destruct (Nat.eqb_spec (S (duration s)) WARNING_DURATION) as [H0 | H0];
      destruct (Nat.ltb_spec (S (duration s)) WARNING_DURATION) as [H1 | H1];
      destruct (Nat.leb_spec WARNING_DURATION (S (duration s) + n)) as [H2 | H2];
      destruct (Nat.ltb_spec (duration s) WARNING_DURATION) as [H3 | H3];
      destruct (Nat.leb_spec WARNING_DURATION (duration s + S n)) as [H4 | H4];
      cbn [andb Nat.add]; try reflexivity; exfalso; lia.
Qed.

(** C4.  A step raises the warning exactly when it is the duration tick
    that takes elapsedSeconds to 270, and that tick always raises it:
    showWarning is true after it, and it becomes true by no other step.
    Between two resets (start, record-again, save, close) the warning is
    raised at most once, and the ticks of a Recording session that cross
    270 below the cap raise it exactly once.  Raising it schedules the
    callback that clears it, with a delay of 3000 ms; no step cancels a
    scheduled callback, so it stays pending through every other step, and
    when it fires showWarning is false. *)
Theorem warning_one_shot : forall s ev evs,
  (warningRaised ev s = true <->
     exists e, ev = TimerTick true e /\ duration s < WARNING_DURATION
               /\ duration (next ev s) = WARNING_DURATION)
  /\ (warningRaised ev s = true ->
        showWarning (next ev s) = true
        /\ pendingTimeouts (next ev s) = pendingTimeouts s ++ [3000%N])
  /\ (showWarning s = false -> showWarning (next ev s) = true ->
        warningRaised ev s = true)
  /\ (no_reset evs = true -> warnings evs s <= 1)
  /\ (no_timeout evs = true -> enabled s WarningTimeout = true ->
        enabled (run evs s) WarningTimeout = true
        /\ showWarning (next WarningTimeout (run evs s)) = false)
  /\ (forall e, S (duration s) = WARNING_DURATION ->
        warningRaised (TimerTick true e) s = true
        /\ showWarning (next (TimerTick true e) s) = true
        /\ duration (next (TimerTick true e) s) = WARNING_DURATION
        /\ pendingTimeouts (next (TimerTick true e) s)
           = pendingTimeouts s ++ [3000%N]
        /\ enabled (next (TimerTick true e) s) WarningTimeout = true)
  /\ (forall e n, reachable s -> sessionState s = Recording ->
        duration s < WARNING_DURATION ->
        WARNING_DURATION <= duration s + n ->
        duration s + n < MAX_DURATION ->
        warnings (ticks e n) s = 1).
Proof.
  intros s ev evs.
  destruct (handled_warning s ev) as (_ & Hth & Hshow & Hpend).
  rewrite <- (eff_showWarning _ _ _ _ (next_post ev s)) in Hth, Hshow.
  rewrite <- next_duration in Hth.
  rewrite <- warningRaised_threshold in Hth, Hshow.
  split; [| split; [| split; [| split; [| split; [| split]]]]].
  - split.
    + intros Hr. destruct (Hth Hr) as (_ & Hd).
      rewrite warningRaised_threshold in Hr. unfold threshold_tick in Hr.
      destruct ev; try discriminate Hr.
      destruct devIsRecording; [| discriminate Hr].
      exists e. split; [reflexivity | split; [| exact Hd]].
      apply Nat.eqb_eq in Hr. rewrite <- Hr. apply Nat.lt_succ_diag_r.
    + intros (e & -> & Hlt & Hd).
      rewrite warningRaised_threshold. cbn [threshold_tick]. apply Nat.eqb_eq.
      destruct (step_duration s (TimerTick true e)) as [H | [(e' & _ & H & _) | (Hr & _)]].
      * rewrite H in Hd. rewrite Hd in Hlt. elim (Nat.lt_irrefl _ Hlt).
      * rewrite <- H. exact Hd.
      * discriminate Hr.
  - intros Hr. split; [apply Hth, Hr |].
    assert (Hnt : is_WarningTimeout ev = false).
    { rewrite warningRaised_threshold in Hr.
      destruct ev; try reflexivity; discriminate Hr. }
    rewrite (next_pendingTimeouts ev s Hnt), Hr. reflexivity.
  - intros Hf Ht. destruct (Hshow Ht) as [H | H]; [| exact H].
    rewrite Hf in H. discriminate H.
  - intros Hnr. etransitivity; [apply warnings_bound, Hnr |].
    destruct (duration s <? WARNING_DURATION); auto.
  - intros Hnt Hen. split; [apply timeout_stays_pending; assumption |].
    apply timeout_clears_warning.
  - intros e Hd. apply threshold_tick_raises, Hd.
  - intros e n Hs Hrec H1 H2 H3.
    rewrite (warnings_ticks e n s (reachable_Inv s Hs) Hrec H3).
    apply Nat.ltb_lt in H1. apply Nat.leb_le in H2. rewrite H1, H2. reflexivity.
Qed.

Lemma session_0_enabled :
  all_enabled (PressStart startOk :: ticks stop0 0) mounted0 = true.
Proof. vm_compute. reflexivity. Qed.

Lemma session_269_enabled :
  all_enabled (PressStart startOk :: ticks stop0 269) mounted0 = true.
Proof. vm_compute. reflexivity. Qed.

Lemma session_270_enabled :
  all_enabled (PressStart startOk :: ticks stop0 270) mounted0 = true.
Proof. vm_compute. reflexivity. Qed.

Lemma warning_one_shot_witness :
  warningRaised (TimerTick true stop0) (session 269) = true
  /\ showWarning (next (TimerTick true stop0) (session 269)) = true
  /\ warnings (ticks stop0 299) (session 0) = 1
  /\ warnings (PressPause true :: PressResume true :: ticks stop0 30) (session 269) <= 1
  /\ showWarning
       (next WarningTimeout
          (run [PressPause true; PressStop stop0] (session 270))) = false.
Proof.
  destruct (warning_one_shot (session 269) WarningTimeout
              (PressPause true :: PressResume true :: ticks stop0 30))
    as (_ & _ & _ & Hbound & _ & Hraise & _).
  destruct (warning_one_shot (session 0) WarningTimeout [])
    as (_ & _ & _ & _ & _ & _ & Hcount).
  destruct (warning_one_shot (session 270) WarningTimeout
              [PressPause true; PressStop stop0])
    as (_ & _ & _ & _ & Hclear & _).
  assert (H269 : S (duration (session 269)) = WARNING_DURATION)
    by (vm_compute; reflexivity).
  destruct (Hraise stop0 H269) as (Hr & Hs & _).
  split; [exact Hr | split; [exact Hs | split; [| split]]].
  - apply (Hcount stop0 299 (session_reachable 0 session_0_enabled)).
    + vm_compute. reflexivity.
    + vm_compute. lia.
    + vm_compute. lia.
    + vm_compute. lia.
  - exact (Hbound eq_refl).
  - refine (proj2 (Hclear eq_refl _)). vm_compute. reflexivity.
Defined.

(** ** C5: the audio level of a metering sample *)

(** The normalization in the spec's words: clamp x between lo and hi. *)
Definition spec_clamp (x lo hi : Q) : Q :=
  if negb (Qle_bool lo x) then lo
  else if negb (Qle_bool x hi) then hi
  else x.

Lemma Qle_bool_false : forall a b, Qle_bool a b = false -> (b < a)%Q.
Proof.
  intros a b H. apply Qnot_le_lt. intros Hle.
  apply Qle_bool_iff in Hle. rewrite Hle in H. discriminate H.
Qed.

Lemma clamp_Math : forall x,
  (Math_max 0 (Math_min 1 x) == spec_clamp x 0 1)%Q.
Proof.
  intros x. unfold Math_max, Math_min, spec_clamp.
  destruct (Qle_bool 1 x) eqn:H1; destruct (Qle_bool 0 x) eqn:H0;
    destruct (Qle_bool x 1) eqn:Hx; cbn [negb];
    try change (Qle_bool 0 1) with true; cbn iota;
    try rewrite H0; try reflexivity.
  - apply Qle_bool_iff in H1, Hx. apply Qle_antisym; assumption.
  - apply Qle_bool_iff in H1. apply Qle_bool_false in H0.
    exfalso. apply (Qlt_irrefl 0). apply Qlt_trans with (y := 1%Q); [reflexivity |].
    apply Qle_lt_trans with (y := x); assumption.
  - apply Qle_bool_iff in H1. apply Qle_bool_false in H0.
    exfalso. apply (Qlt_irrefl 0). apply Qlt_trans with (y := 1%Q); [reflexivity |].
    apply Qle_lt_trans with (y := x); assumption.
  - apply Qle_bool_false in H1, Hx. exfalso.
    exact (Qlt_irrefl _ (Qlt_trans _ _ _ H1 Hx)).
Qed.

Lemma metering_sets_level : forall s metering,
  audioLevel (next (MeteringTick (Some metering)) s) = normalize metering
  /\ In (AnimateBars (normalize metering))
        (outputs (MeteringTick (Some metering)) s).
Proof.
  intros s metering. split; [| apply trace_outputs; cbn; auto].
  open_state s. run_model; reflexivity.
Qed.

(** C5.  A defined reading db is normalized to clamp((db + 160) / 160, 0, 1)
    and a missing reading to 0; -160 dB gives 0 and -40 dB gives 0.75; the
    metering callback stores exactly this level and hands it to the
    visualizer. *)
Theorem audio_level_normalization : forall db s metering,
  (normalize (Some db) == spec_clamp ((db + 160) / 160) 0 1)%Q
  /\ normalize None = 0%Q
  /\ (normalize (Some (-160 # 1)) == 0)%Q
  /\ (normalize (Some (-40 # 1)) == 3 # 4)%Q
  /\ audioLevel (next (MeteringTick (Some metering)) s) = normalize metering
  /\ In (AnimateBars (normalize metering))
        (outputs (MeteringTick (Some metering)) s).
Proof.
  intros db s metering.
  split; [apply clamp_Math |].
  split; [reflexivity |].
  split; [vm_compute; reflexivity |].
  split; [vm_compute; reflexivity |].
  apply metering_sets_level.
Qed.

(** ** C6: closing twice *)

(** What a handler answers: [Returned tt], or the exception that escapes it. *)
Definition result (ev : Event) (s : State) : Res unit :=
  fst (fst (handler s ev s [])).

(** The state every close leaves. *)
Definition closed (s : State) (e : CloseEnv) : State :=
  mkState false false 0 None false (hasPermission s) 0%Q
    (isPlaying s && negb (cl_pauseOk e)) false false (pendingTimeouts s).

Lemma close_handled : forall s e, handled (PressClose e) s = closed s e.
Proof.
  intros s e. unfold closed. open_state s. open_env. fields.
  run_model; reflexivity.
Qed.

(** The effects leave a state alone that records nothing, has no artifact,
    no live interval and level 0. *)
Lemma effects_idle : forall prev ok s1,
  isRecording s1 = false -> recordedUri s1 = None ->
  timerRef s1 = false -> meteringRef s1 = false -> audioLevel s1 = 0%Q ->
  snd (fst (effects prev ok s1 [])) = s1.
Proof.
  intros prev ok s1. destruct prev, s1. fields.
  intros -> -> -> -> ->. run_model; reflexivity.
Qed.

Lemma close_state : forall s e, next (PressClose e) s = closed s e.
Proof.
  intros s e. unfold next, step.
  pose proof (effects_idle s (replaceAnswer (PressClose e)) (handled (PressClose e) s)) as H.
  destruct (effects s (replaceAnswer (PressClose e)) (handled (PressClose e) s) [])
    as [[r s2] o2].
  cbn [fst snd] in *. rewrite close_handled in *.
  apply H; reflexivity.
Qed.

Lemma close_result : forall s e, result (PressClose e) s = Returned tt.
Proof.
  intros s e. unfold result. open_state s. open_env.
  run_model; reflexivity.
Qed.

Lemma close_trace_no_stop : forall s e ok,
  isRecording s = false -> ~ In (Dev recorder_stop ok) (trace (PressClose e) s).
Proof.
  intros s e ok. remember (trace (PressClose e) s) as t eqn:Et. revert t Et.
  open_state s. open_env. fields.
  run_model; intros t -> Hr; try discriminate Hr; cbn [In]; intros H;
    repeat match goal with
    | H : _ \/ _ |- _ => destruct H as [H | H]
    | H : False |- _ => destruct H
    end; discriminate H.
Qed.

Record torn_down (s : State) : Prop := {
  td_session : sessionState s = Idle;
  td_isRecording : isRecording s = false;
  td_isPaused : isPaused s = false;
  td_duration : duration s = 0;
  td_recordedUri : recordedUri s = None;
  td_showWarning : showWarning s = false;
  td_audioLevel : audioLevel s = 0%Q;
  td_timerRef : timerRef s = false;
  td_meteringRef : meteringRef s = false
}.

Lemma closed_torn_down : forall s e, torn_down (closed s e).
Proof. intros s e. split; reflexivity. Qed.

(** C6, as stated, fails twice.  Timers are still running after the close
    path ran twice: the warning timeout scheduled at 270 seconds stays
    pending and can still fire, and so can the playback poll.  And the
    second call can change something: when the player's pause threw during
    the first close of a playing recorder, the second close pauses it and
    clears isPlaying. *)
Lemma close_leaves_timeout_and_poll :
  reachable (session 270)
  /\ pendingTimeouts
       (next (PressClose closeOk) (next (PressClose closeOk) (session 270)))
     = [3000%N]
  /\ enabled (next (PressClose closeOk) (next (PressClose closeOk) (session 270)))
       WarningTimeout = true
  /\ enabled (next (PressClose closeOk) (next (PressClose closeOk) (session 270)))
       (PollPlayback true) = true
  /\ isPlaying
       (next (PressClose (mkCloseEnv true false))
          (next (PressPlay playOk) (next (PressStop stop0) (session 5)))) = true
  /\ isPlaying
       (next (PressClose closeOk)
          (next (PressClose (mkCloseEnv true false))
             (next (PressPlay playOk) (next (PressStop stop0) (session 5)))))
     = false.
Proof.
  split; [apply session_reachable; vm_compute; reflexivity |].
  repeat split; vm_compute; reflexivity.
Qed.

(** C6 (amended).  After one close, and after a second close right behind
    it, the session is Idle with duration 0, no artifact, the warning
    cleared, the audio level 0, and the duration timer and the metering
    interval cleared.  The second close issues no recorder stop, lets no
    exception escape and leaves the state as the first close left it,
    except that it retries the player's pause, and then clears isPlaying,
    when that pause threw during the first close.  The close path cancels
    neither a pending warning timeout nor the playback poll. *)
Theorem close_idempotent : forall s e1 e2,
  torn_down (next (PressClose e1) s)
  /\ torn_down (next (PressClose e2) (next (PressClose e1) s))
  /\ set_isPlaying false (next (PressClose e2) (next (PressClose e1) s))
     = set_isPlaying false (next (PressClose e1) s)
  /\ (isPlaying (next (PressClose e1) s) = false ->
        next (PressClose e2) (next (PressClose e1) s) = next (PressClose e1) s)
  /\ (forall ok,
        ~ In (Dev recorder_stop ok) (outputs (PressClose e2) (next (PressClose e1) s)))
  /\ result (PressClose e1) s = Returned tt
  /\ result (PressClose e2) (next (PressClose e1) s) = Returned tt
  /\ isPlaying (next (PressClose e1) s) = isPlaying s && negb (cl_pauseOk e1)
  /\ isPlaying (next (PressClose e2) (next (PressClose e1) s))
     = isPlaying s && negb (cl_pauseOk e1) && negb (cl_pauseOk e2)
  /\ pendingTimeouts (next (PressClose e2) (next (PressClose e1) s))
     = pendingTimeouts s
  /\ (pendingTimeouts s <> [] ->
        enabled (next (PressClose e2) (next (PressClose e1) s)) WarningTimeout = true)
  /\ (forall playing,
        enabled (next (PressClose e2) (next (PressClose e1) s))
          (PollPlayback playing) = true).
Proof.
  intros s e1 e2. rewrite !close_state.
  split; [apply closed_torn_down |].
  split; [apply closed_torn_down |].
  split; [reflexivity |].
  split.
  { unfold closed; fields. intros H. rewrite H. reflexivity. }
  split.
  { intros ok H. rewrite <- close_state in H.
    apply outputs_inv in H as [H | H]; [| exact H].
    revert H. apply close_trace_no_stop. rewrite close_state. reflexivity. }
  split; [apply close_result |].
  split; [apply close_result |].
  split; [reflexivity |].
  split; [reflexivity |].
  split; [reflexivity |].
  split; [| intros playing; reflexivity].
  intros Hne. cbn [enabled closed pendingTimeouts].
  destruct (pendingTimeouts s); [elim Hne; reflexivity | reflexivity].
Qed.

Lemma close_idempotent_witness :
  next (PressClose closeOk) (next (PressClose closeOk) (session 5))
  = next (PressClose closeOk) (session 5)
  /\ enabled (next (PressClose closeOk) (next (PressClose closeOk) (session 270)))
       WarningTimeout = true.
Proof.
  split.
  - exact (proj1 (proj2 (proj2 (proj2
             (close_idempotent (session 5) closeOk closeOk)))) eq_refl).
  - destruct (close_idempotent (session 270) closeOk closeOk)
      as (_ & _ & _ & _ & _ & _ & _ & _ & _ & _ & H & _).
    apply H. vm_compute. discriminate.
Defined.

(** ** C7: the order of the device calls in startRecording *)

(** The effects emit nothing and leave isPlaying alone unless the step
    produced a new artifact. *)
Lemma effects_no_new_uri : forall prev ok s1,
  recordedUri s1 = recordedUri prev \/ recordedUri s1 = None ->
  snd (effects prev ok s1 []) = []
  /\ isPlaying (snd (fst (effects prev ok s1 []))) = isPlaying s1.
Proof.
  intros prev ok s1 H. destruct prev, s1. fields.
  destruct H as [-> | ->]; run_model;
    try (split; reflexivity);
    match goal with
    | H : (?x =? ?x)%string = false |- _ => rewrite String.eqb_refl in H; discriminate H
    end.
Qed.

Lemma outputs_no_new_uri : forall ev s,
  recordedUri (handled ev s) = recordedUri s \/ recordedUri (handled ev s) = None ->
  outputs ev s = trace ev s
  /\ isPlaying (next ev s) = isPlaying (handled ev s).
Proof.
  intros ev s H. unfold outputs, next, step.
  destruct (effects_no_new_uri s (replaceAnswer ev) (handled ev s) H) as (Ho & Hp).
  destruct (effects s (replaceAnswer ev) (handled ev s) []) as [[r s2] o2].
  cbn [fst snd] in *. rewrite Ho, app_nil_r. split; [reflexivity | exact Hp].
Qed.

Lemma start_uri : forall s st,
  recordedUri (handled (PressStart st) s) = recordedUri s
  \/ recordedUri (handled (PressStart st) s) = None.
Proof.
  intros s st. remember (handled (PressStart st) s) as h eqn:E. revert h E.
  open_state s. open_env.
  run_model; intros h ->; fields; auto.
Qed.

Lemma start_outputs : forall s st,
  outputs (PressStart st) s = trace (PressStart st) s.
Proof. intros s st. apply outputs_no_new_uri, start_uri. Qed.

(** Splitting a concrete trace at one of its elements. *)
Ltac split_trace H pre :=
  repeat (destruct pre as [| ? pre]; cbn [app] in H;
          [ try discriminate H | try discriminate H; injection H as <- H ]).

Lemma start_trace_order : forall s st pre x post,
  trace (PressStart st) s = pre ++ x :: post ->
  (forall ok, x = Dev recorder_record ok ->
     In (Dev (setAudioModeAsync true true) true) pre)
  /\ (forall ok, x = Dev recorder_prepareToRecordAsync ok ->
        st_statusBefore st = true ->
        exists pre', pre = pre' ++ [Dev recorder_stop true; Sleep 200%N]).
Proof.
  intros s st pre x post.
  remember (trace (PressStart st) s) as t eqn:Et. revert t Et.
  open_state s. open_env. cbn [st_statusBefore].
  run_model; intros t -> H;
    (split; [intros ok -> | intros ok -> Hb; try discriminate Hb]);
    split_trace H pre;
    try discriminate H;
    first [ solve [cbn [In]; auto 10]
          | exists [Dev requestRecordingPermissionsAsync true;
                    Dev (setAudioModeAsync true true) true;
                    Dev recorder_getStatus true]; reflexivity ].
Qed.

(** C7.  In every execution of startRecording the record command is issued
    only after setAudioModeAsync (recording allowed) has returned; and when
    the status read before the start reports an active capture, the
    recorder's stop has returned and a wait of 200 ms (at most 300 ms) has
    elapsed right before prepareToRecordAsync is issued. *)
Theorem start_ordering : forall s st pre x post,
  outputs (PressStart st) s = pre ++ x :: post ->
  (forall ok, x = Dev recorder_record ok ->
     In (Dev (setAudioModeAsync true true) true) pre)
  /\ (forall ok, x = Dev recorder_prepareToRecordAsync ok ->
        st_statusBefore st = true ->
        exists pre' ms,
          pre = pre' ++ [Dev recorder_stop true; Sleep ms] /\ (ms <= 300)%N).
Proof.
  intros s st pre x post H. rewrite start_outputs in H.
  destruct (start_trace_order s st pre x post H) as (H1 & H2).
  split; [exact H1 |].
  intros ok Hx Hb. destruct (H2 ok Hx Hb) as (pre' & Hp).
  exists pre', 200%N. split; [exact Hp | discriminate].
Qed.

Definition restartOk : StartEnv :=
  mkStartEnv (Some true) true true true true true true.

Lemma start_ordering_witness :
  In (Dev (setAudioModeAsync true true) true)
     [Dev requestRecordingPermissionsAsync true;
      Dev (setAudioModeAsync true true) true; Dev recorder_getStatus true;
      Dev recorder_stop true; Sleep 200%N;
      Dev recorder_prepareToRecordAsync true].
Proof.
  refine (proj1 (start_ordering mounted0 restartOk _ (Dev recorder_record true)
                   [Sleep 200%N; Dev recorder_getStatus true] _) true eq_refl).
  reflexivity.
Defined.

(** ** C8: the play button *)

Lemma play_uri : forall s e,
  recordedUri (handled (PressPlay e) s) = recordedUri s
  \/ recordedUri (handled (PressPlay e) s) = None.
Proof.
  intros s e. left. remember (handled (PressPlay e) s) as h eqn:E. revert h E.
  open_state s. open_env.
  run_model; intros h ->; reflexivity.
Qed.

Lemma play_trace_stopped : forall s e,
  truthy (recordedUri s) = true -> isPlaying s = false ->
  (exists rest,
     trace (PressPlay e) s = Dev (player_seekTo 0) (pl_seekOk e) :: rest)
  /\ (forall pre ok post,
        trace (PressPlay e) s = pre ++ Dev player_play ok :: post ->
        pre = [Dev (player_seekTo 0) true; Dev (setAudioModeAsync true false) true])
  /\ (pl_seekOk e = true -> pl_modeOk e = true -> pl_playOk e = true ->
        trace (PressPlay e) s
        = [Dev (player_seekTo 0) true; Dev (setAudioModeAsync true false) true;
           Dev player_play true]
        /\ isPlaying (handled (PressPlay e) s) = true).
Proof.
  intros s e.
  remember (handled (PressPlay e) s) as h eqn:E.
  remember (trace (PressPlay e) s) as t eqn:Et. revert h t E Et.
  open_state s. open_env. cbn [pl_seekOk pl_modeOk pl_playOk]. fields.
  run_model; intros h t -> -> Hu Hp; try discriminate Hu; try discriminate Hp;
    (split; [eexists; reflexivity |]);
    (split;
     [ intros pre ok post H; split_trace H pre; try discriminate H; reflexivity
     | intros H1 H2 H3; try discriminate H1; try discriminate H2;
       try discriminate H3; split; reflexivity ]).
Qed.

Lemma play_trace_playing : forall s e,
  isPlaying s = true ->
  (exists rest, trace (PressPlay e) s = Dev player_pause (pl_pauseOk e) :: rest)
  /\ (forall ok, ~ In (Dev player_play ok) (trace (PressPlay e) s))
  /\ (pl_pauseOk e = true -> isPlaying (handled (PressPlay e) s) = false).
Proof.
  intros s e.
  remember (handled (PressPlay e) s) as h eqn:E.
  remember (trace (PressPlay e) s) as t eqn:Et. revert h t E Et.
  open_state s. open_env. cbn [pl_pauseOk]. fields.
  run_model; intros h t -> -> Hp; try discriminate Hp;
    (split; [eexists; reflexivity |]);
    (split;
     [ intros ok; cbn [In]; intros H;
       repeat match goal with
       | H : _ \/ _ |- _ => destruct H as [H | H]
       | H : False |- _ => destruct H
       end; discriminate H
     | intros H1; try discriminate H1; reflexivity ]).
Qed.

(** C8.  Pressed in the playback view while nothing plays, the button first
    issues seekTo(0), whatever happens next; a play command is issued only
    after that seek and after setAudioModeAsync with recording disallowed
    have both returned, and when the three calls return the component is
    playing.  Pressed while playing, it issues pause and no play. *)
Theorem play_toggle : forall s e,
  truthy (recordedUri s) = true ->
  (isPlaying s = false ->
     (exists rest,
        outputs (PressPlay e) s = Dev (player_seekTo 0) (pl_seekOk e) :: rest)
     /\ (forall pre ok post,
           outputs (PressPlay e) s = pre ++ Dev player_play ok :: post ->
           pre = [Dev (player_seekTo 0) true;
                  Dev (setAudioModeAsync true false) true])
     /\ (pl_seekOk e = true -> pl_modeOk e = true -> pl_playOk e = true ->
           outputs (PressPlay e) s
           = [Dev (player_seekTo 0) true; Dev (setAudioModeAsync true false) true;
              Dev player_play true]
           /\ isPlaying (next (PressPlay e) s) = true))
  /\ (isPlaying s = true ->
        (exists rest,
           outputs (PressPlay e) s = Dev player_pause (pl_pauseOk e) :: rest)
        /\ (forall ok, ~ In (Dev player_play ok) (outputs (PressPlay e) s))
        /\ (pl_pauseOk e = true -> isPlaying (next (PressPlay e) s) = false)).
Proof.
  intros s e Hu.
  destruct (outputs_no_new_uri (PressPlay e) s (play_uri s e)) as (Ho & Hp).
  rewrite Ho, Hp. split; intros Hplay.
  - exact (play_trace_stopped s e Hu Hplay).
  - exact (play_trace_playing s e Hplay).
Qed.

Lemma play_toggle_witness :
  isPlaying (next (PressPlay playOk) (next (PressStop stop0) (session 5))) = true
  /\ isPlaying (next (PressPlay playOk)
                  (next (PressPlay playOk) (next (PressStop stop0) (session 5))))
     = false.
Proof.
  split.
  - exact (proj2 (proj2 (proj2 (proj1
             (play_toggle (next (PressStop stop0) (session 5)) playOk eq_refl)
             eq_refl)) eq_refl eq_refl eq_refl)).
  - exact (proj2 (proj2 (proj2
             (play_toggle (next (PressPlay playOk) (next (PressStop stop0) (session 5)))
                playOk eq_refl)
             eq_refl)) eq_refl).
Defined.

(** * Further properties of the recorder *)

(** ** The state after a step that produced no new artifact *)

Definition settle (prev s1 : State) : State :=
  if deps_changed prev s1 then
    if live s1 then set_timerRef true (set_meteringRef true s1)
    else set_timerRef false (set_audioLevel 0%Q (set_meteringRef false s1))
  else s1.

Lemma effects_settle : forall prev ok s1,
  recordedUri s1 = recordedUri prev \/ recordedUri s1 = None ->
  snd (fst (effects prev ok s1 [])) = settle prev s1.
Proof.
  intros prev ok s1 H. destruct prev, s1. unfold settle, deps_changed, live. fields.
  destruct H as [-> | ->]; run_model;
    try reflexivity;
    match goal with
    | H : (?x =? ?x)%string = false |- _ => rewrite String.eqb_refl in H; discriminate H
    end.
Qed.

Lemma next_settle : forall ev s,
  recordedUri (handled ev s) = recordedUri s \/ recordedUri (handled ev s) = None ->
  next ev s = settle s (handled ev s).
Proof.
  intros ev s H. unfold next, step.
  pose proof (effects_settle s (replaceAnswer ev) (handled ev s) H) as E.
  destruct (effects s (replaceAnswer ev) (handled ev s) []) as [[r s2] o2].
  exact E.
Qed.

(** ** Pause and resume (lines 389-409) *)

Lemma pause_handled : forall s ok,
  handled (PressPause ok) s = (if ok then set_isPaused true s else s)
  /\ trace (PressPause ok) s
     = Dev recorder_pause ok
       :: (if ok then [] else [ConsoleError "Pause error" (DeviceFailure recorder_pause)]).
Proof. intros s [|]; split; reflexivity. Qed.

Lemma resume_handled : forall s ok,
  handled (PressResume ok) s = (if ok then set_isPaused false s else s)
  /\ trace (PressResume ok) s
     = Dev recorder_record ok
       :: (if ok then [] else [ConsoleError "Resume error" (DeviceFailure recorder_record)]).
Proof. intros s [|]; split; reflexivity. Qed.

(** Pausing a Recording session shows Paused, keeps the duration, clears
    both intervals (no duration tick and no metering sample can fire any
    more) and puts the audio level back to 0; resuming it from there gives
    back the state before the pause, the audio level apart. *)
Theorem pause_resume_round_trip : forall s,
  reachable s ->
  sessionState s = Recording ->
  sessionState (next (PressPause true) s) = Paused
  /\ duration (next (PressPause true) s) = duration s
  /\ (forall d e, enabled (next (PressPause true) s) (TimerTick d e) = false)
  /\ (forall m, enabled (next (PressPause true) s) (MeteringTick m) = false)
  /\ audioLevel (next (PressPause true) s) = 0%Q
  /\ enabled (next (PressPause true) s) (PressResume true) = true
  /\ next (PressResume true) (next (PressPause true) s) = set_audioLevel 0%Q s.
Proof.
  intros s Hs Hrec. pose proof (reachable_Inv s Hs) as Hinv.
  destruct (Recording_fields s Hinv Hrec) as (Hr & Hp & Hu & Ht & Hm).
  clear Hs Hinv Hrec. open_state s. fields. subst rec pau tref mref.
  assert (E1 : next (PressPause true)
                 (mkState true false dur uri warn perm lvl play true true pend)
               = mkState true true dur uri warn perm 0%Q play false false pend).
  { rewrite next_settle by (left; reflexivity).
    rewrite (proj1 (pause_handled _ true)). reflexivity. }
  rewrite E1.
  assert (E2 : next (PressResume true)
                 (mkState true true dur uri warn perm 0%Q play false false pend)
               = mkState true false dur uri warn perm 0%Q play true true pend).
  { rewrite next_settle by (left; reflexivity).
    rewrite (proj1 (resume_handled _ true)). reflexivity. }
  rewrite E2. unfold sessionState. cbn [enabled]. fields. rewrite Hu.
  repeat split; reflexivity.
Qed.

Lemma pause_resume_round_trip_witness :
  next (PressResume true) (next (PressPause true) (session 5))
  = set_audioLevel 0%Q (session 5).
Proof.
  exact (proj2 (proj2 (proj2 (proj2 (proj2 (proj2
           (pause_resume_round_trip (session 5)
              (session_reachable 5 session_5_enabled) eq_refl))))))).
Defined.

(** When the device's pause (or record, on resume) throws, the error is
    caught and written to the console, and the component stays exactly as
    it was: a failed pause leaves it showing Recording with the timer
    running, a failed resume leaves it Paused. *)
Theorem pause_resume_failure : forall s,
  next (PressPause false) s = s
  /\ outputs (PressPause false) s
     = [Dev recorder_pause false;
        ConsoleError "Pause error" (DeviceFailure recorder_pause)]
  /\ result (PressPause false) s = Returned tt
  /\ next (PressResume false) s = s
  /\ outputs (PressResume false) s
     = [Dev recorder_record false;
        ConsoleError "Resume error" (DeviceFailure recorder_record)]
  /\ result (PressResume false) s = Returned tt.
Proof.
  intros s.
  assert (Hsettle : settle s s = s).
  { unfold settle, deps_changed. rewrite !Bool.eqb_reflx. reflexivity. }
  repeat split.
  - rewrite next_settle by (left; reflexivity).
    rewrite (proj1 (pause_handled s false)). exact Hsettle.
  - rewrite (proj1 (outputs_no_new_uri (PressPause false) s (or_introl eq_refl))).
    reflexivity.
  - rewrite next_settle by (left; reflexivity).
    rewrite (proj1 (resume_handled s false)). exact Hsettle.
  - rewrite (proj1 (outputs_no_new_uri (PressResume false) s (or_introl eq_refl))).
    reflexivity.
Qed.

(** ** Starting (lines 279-387) *)










(** ** Stopping (lines 411-431) *)

Lemma stop_handled : forall s e,
  handled (PressStop e) s
  = (if sp_stopOk e then
       if truthy (sp_uri e)
       then set_recordedUri (sp_uri e) (set_isPaused false (set_isRecording false s))
       else set_isPaused false (set_isRecording false s)
     else s).
Proof.
  intros s [ok u rep]. cbn [sp_stopOk sp_uri].
  unfold handled, handler, stopRecording, try_catch, bind, call.
  cbn [sp_stopOk sp_uri]. destruct ok; [| reflexivity].
  cbn. destruct (truthy u); reflexivity.
Qed.

Definition is_OnSave (x : Output) : bool :=
  match x with
  | OnSave _ _ => true
  | _ => false
  end.

Lemma stop_with_uri_step : forall s e u,
  isRecording s = true -> truthy (recordedUri s) = false ->
  sp_stopOk e = true -> sp_uri e = Some u -> truthy (Some u) = true ->
  sp_replaceOk e = true ->
  next (PressStop e) s
  = mkState false false (duration s) (Some u) (showWarning s) (hasPermission s)
      0%Q false false false (pendingTimeouts s)
  /\ outputs (PressStop e) s = [Dev recorder_stop true; Dev (player_replace u) true].
Proof.
  intros s e u. open_state s. open_env. fields.
  cbn [sp_stopOk sp_uri sp_replaceOk]. intros -> Hu -> -> Ht ->.
  revert Hu Ht. run_model; intros Hu Ht; try discriminate Hu; try discriminate Ht;
    try match goal with
        | H : (_ =? _)%string = true |- _ => cbn in H; discriminate H
        end;
    (split; reflexivity).
Qed.

(** A stop whose device call returns with a URI, from Recording or Paused,
    gives the Stopped session: the artifact is that URI, the duration is the
    one counted so far, both intervals are cleared, the player is loaded
    with the new artifact and not playing.  Nothing is handed to the caller
    yet: onSave is not fired by the stop. *)
Theorem stop_with_uri : forall s e u,
  reachable s ->
  enabled s (PressStop e) = true ->
  sp_stopOk e = true -> sp_uri e = Some u -> truthy (Some u) = true ->
  sp_replaceOk e = true ->
  sessionState (next (PressStop e) s) = Stopped
  /\ recordedUri (next (PressStop e) s) = Some u
  /\ duration (next (PressStop e) s) = duration s
  /\ isPlaying (next (PressStop e) s) = false
  /\ timerRef (next (PressStop e) s) = false
  /\ meteringRef (next (PressStop e) s) = false
  /\ outputs (PressStop e) s = [Dev recorder_stop true; Dev (player_replace u) true]
  /\ existsb is_OnSave (outputs (PressStop e) s) = false.
Proof.
  intros s e u Hs Hen Hok Hu Ht Hrep.
  cbn [enabled] in Hen. apply andb_true_iff in Hen as [Hfalsy Hr].
  apply negb_true_iff in Hfalsy.
  destruct (stop_with_uri_step s e u Hr Hfalsy Hok Hu Ht Hrep) as (En & Eo).
  rewrite En, Eo. unfold sessionState. fields. rewrite Ht.
  repeat split; reflexivity.
Qed.

Lemma stop_with_uri_witness :
  sessionState (next (PressStop stop0) (session 5)) = Stopped
  /\ duration (next (PressStop stop0) (session 5)) = duration (session 5).
Proof.
  destruct (stop_with_uri (session 5) stop0 uri0
              (session_reachable 5 session_5_enabled)
              eq_refl eq_refl eq_refl eq_refl eq_refl)
    as (H1 & _ & H3 & _).
  split; [exact H1 | exact H3].
Defined.

(** When the device's stop throws, the error is only written to the
    console: the component stays exactly as it was, so it still shows
    Recording (or Paused) and, while Recording, its duration timer keeps
    running. *)
Theorem stop_failure : forall s e,
  sp_stopOk e = false ->
  next (PressStop e) s = s
  /\ outputs (PressStop e) s
     = [Dev recorder_stop false;
        ConsoleError "Stop error" (DeviceFailure recorder_stop)]
  /\ result (PressStop e) s = Returned tt.
Proof.
  intros s e Hok.
  assert (Hh : handled (PressStop e) s = s) by (rewrite stop_handled, Hok; reflexivity).
  assert (Hu : recordedUri (handled (PressStop e) s) = recordedUri s
               \/ recordedUri (handled (PressStop e) s) = None)
    by (left; rewrite Hh; reflexivity).
  split; [| split].
  - rewrite (next_settle _ _ Hu), Hh.
    unfold settle, deps_changed. rewrite !Bool.eqb_reflx. reflexivity.
  - rewrite (proj1 (outputs_no_new_uri _ _ Hu)).
    destruct e as [ok u rep]. cbn [sp_stopOk] in Hok. subst ok. reflexivity.
  - destruct e as [ok u rep]. cbn [sp_stopOk] in Hok. subst ok. reflexivity.
Qed.

Lemma stop_failure_witness :
  sessionState (next (PressStop (mkStopEnv false None true)) (session 5)) = Recording.
Proof.
  rewrite (proj1 (stop_failure (session 5) (mkStopEnv false None true) eq_refl)).
  reflexivity.
Defined.

(** ** Saving (lines 539-544) *)

Lemma trace_OnSave : forall s ev,
  existsb is_OnSave (trace ev s)
  = match ev with
    | PressSave _ => truthy (recordedUri s) && (0 <? duration s)
    | _ => false
    end.
Proof.
  intros s ev. remember (trace ev s) as t eqn:Et. revert t Et.
  open_state s. fields.
  destruct ev; open_env; run_model; intros t ->; reflexivity.
Qed.

Lemma effect_outputs_no_OnSave : forall o,
  Forall effect_output o -> existsb is_OnSave o = false.
Proof.
  induction 1 as [| x o Hx _ IH]; [reflexivity |].
  cbn [existsb]. rewrite IH.
  destruct x; try contradiction Hx; reflexivity.
Qed.

(** onSave is fired by the save button only, and only under the guard of
    handleSave: no stop (manual or automatic), tick, close or other step
    hands a recording to the caller. *)
Theorem onSave_only_on_save : forall s ev,
  existsb is_OnSave (outputs ev s) = true ->
  exists ce, ev = PressSave ce
             /\ truthy (recordedUri s) = true /\ 0 < duration s.
Proof.
  intros s ev H. rewrite outputs_trace, existsb_app in H.
  rewrite (effect_outputs_no_OnSave _ (eff_outputs _ _ _ _ (next_post ev s))) in H.
  rewrite orb_false_r, trace_OnSave in H.
  destruct ev; try discriminate H.
  apply andb_true_iff in H as [H1 H2]. apply Nat.ltb_lt in H2.
  exists e. repeat split; assumption.
Qed.

Lemma onSave_only_on_save_witness :
  exists ce, PressSave closeOk = PressSave ce
             /\ truthy (recordedUri (next (PressStop stop0) (session 5))) = true
             /\ 0 < duration (next (PressStop stop0) (session 5)).
Proof.
  apply (onSave_only_on_save (next (PressStop stop0) (session 5)) (PressSave closeOk)).
  vm_compute. reflexivity.
Defined.

Lemma save_handled : forall s ce,
  handled (PressSave ce) s
  = (if truthy (recordedUri s) && (0 <? duration s) then closed s ce else s).
Proof.
  intros s ce. unfold closed. open_state s. open_env. fields.
  run_model; reflexivity.
Qed.

Lemma save_first_output : forall s ce u,
  recordedUri s = Some u -> truthy (Some u) = true -> 0 < duration s ->
  exists pre, trace (PressSave ce) s = OnSave u (duration s) :: pre ++ [OnClose].
Proof.
  intros s ce u Hu Ht Hd. revert Ht Hd.
  remember (trace (PressSave ce) s) as t eqn:Et. revert t Et.
  open_state s; fields; subst uri. open_env.
  run_model; intros t -> Ht Hd; try discriminate Ht; nat_facts;
    try (exfalso; exact (Nat.lt_irrefl _ (Nat.lt_le_trans _ _ _ Hd Heqb)));
    match goal with
    | |- exists pre, OnSave _ _ :: ?l = _ => exists (removelast l); reflexivity
    end.
Qed.

(** Save and attach, from the playback view.  With a positive duration the
    caller first receives onSave with the artifact and the duration shown,
    then the recorder closes: onClose is called, as the last output of the
    step, and the recorder is torn down.  With duration 0, which is what a
    recording stopped before its first tick has, the button does nothing at
    all: no onSave, no close. *)
Theorem save_and_attach : forall s ce u,
  recordedUri s = Some u -> truthy (Some u) = true ->
  (0 < duration s ->
     (exists pre,
        outputs (PressSave ce) s = OnSave u (duration s) :: pre ++ [OnClose])
     /\ torn_down (next (PressSave ce) s))
  /\ (duration s = 0 ->
        next (PressSave ce) s = s /\ outputs (PressSave ce) s = []).
Proof.
  intros s ce u Hu Ht.
  assert (Hh := save_handled s ce). rewrite Hu, Ht in Hh. cbn [andb] in Hh.
  split.
  - intros Hd. assert (Hb : (0 <? duration s) = true) by (apply Nat.ltb_lt, Hd).
    rewrite Hb in Hh.
    assert (Hnone : recordedUri (handled (PressSave ce) s) = recordedUri s
                    \/ recordedUri (handled (PressSave ce) s) = None)
      by (right; rewrite Hh; reflexivity).
    rewrite (proj1 (outputs_no_new_uri _ _ Hnone)).
    split; [apply save_first_output; assumption |].
    unfold next, step.
    pose proof (effects_idle s (replaceAnswer (PressSave ce)) (handled (PressSave ce) s)) as E.
    destruct (effects s (replaceAnswer (PressSave ce)) (handled (PressSave ce) s) [])
      as [[r s2] o2].
    cbn [fst snd] in *. rewrite Hh in E. rewrite E by reflexivity.
    apply closed_torn_down.
  - intros Hd. rewrite Hd in Hh. cbn in Hh.
    assert (Hsame : recordedUri (handled (PressSave ce) s) = recordedUri s
                    \/ recordedUri (handled (PressSave ce) s) = None)
      by (left; rewrite Hh; reflexivity).
    split.
    + rewrite (next_settle _ _ Hsame), Hh.
      unfold settle, deps_changed. rewrite !Bool.eqb_reflx. reflexivity.
    + rewrite (proj1 (outputs_no_new_uri _ _ Hsame)).
      unfold trace, handler, handleSave. rewrite Hu, Ht, Hd. reflexivity.
Qed.

Lemma save_and_attach_witness :
  ((exists pre,
      outputs (PressSave closeOk) (next (PressStop stop0) (session 5))
      = OnSave uri0 (duration (next (PressStop stop0) (session 5)))
        :: pre ++ [OnClose])
   /\ torn_down (next (PressSave closeOk) (next (PressStop stop0) (session 5))))
  /\ (next (PressSave closeOk) (next (PressStop stop0) (session 0))
      = next (PressStop stop0) (session 0)
      /\ outputs (PressSave closeOk) (next (PressStop stop0) (session 0)) = []).
Proof.
  split.
  - refine (proj1 (save_and_attach (next (PressStop stop0) (session 5)) closeOk uri0
                     eq_refl eq_refl) _).
    vm_compute. lia.
  - exact (proj2 (save_and_attach (next (PressStop stop0) (session 0)) closeOk uri0
                    eq_refl eq_refl) eq_refl).
Defined.

(** ** Record again (lines 731-741) *)

Lemma recordAgain_handled : forall s ok,
  handled (PressRecordAgain ok) s
  = (if isPlaying s && negb ok then s
     else mkState false false 0 None (showWarning s) (hasPermission s) 0%Q
            false (timerRef s) (meteringRef s) (pendingTimeouts s))
  /\ result (PressRecordAgain ok) s
     = (if isPlaying s && negb ok then Thrown (DeviceFailure player_pause)
        else Returned tt)
  /\ trace (PressRecordAgain ok) s
     = (if isPlaying s then [Dev player_pause ok] else []).
Proof.
  intros s ok. unfold result. open_state s. fields.
  destruct play, ok; repeat split; reflexivity.
Qed.

(** Record Again, from the Stopped session.  When nothing plays, or the
    player's pause returns, the artifact is discarded and the session is
    Idle with duration 0 and level 0, the start button offered again; a
    playing player is paused first.  The handler has no try/catch: when the
    player's pause throws, the exception escapes and nothing is reset, so
    the component still shows the Stopped session with its artifact. *)
Theorem record_again_discards : forall s ok,
  reachable s ->
  enabled s (PressRecordAgain ok) = true ->
  (isPlaying s && negb ok = false ->
     sessionState (next (PressRecordAgain ok) s) = Idle
     /\ duration (next (PressRecordAgain ok) s) = 0
     /\ recordedUri (next (PressRecordAgain ok) s) = None
     /\ audioLevel (next (PressRecordAgain ok) s) = 0%Q
     /\ isPlaying (next (PressRecordAgain ok) s) = false
     /\ (forall st, enabled (next (PressRecordAgain ok) s) (PressStart st) = true)
     /\ result (PressRecordAgain ok) s = Returned tt
     /\ outputs (PressRecordAgain ok) s
        = (if isPlaying s then [Dev player_pause true] else []))
  /\ (isPlaying s && negb ok = true ->
        next (PressRecordAgain ok) s = s
        /\ sessionState (next (PressRecordAgain ok) s) = Stopped
        /\ result (PressRecordAgain ok) s = Thrown (DeviceFailure player_pause)
        /\ outputs (PressRecordAgain ok) s = [Dev player_pause false]).
Proof.
  intros s ok Hs Hen. pose proof (reachable_Inv s Hs) as Hinv.
  cbn [enabled] in Hen.
  destruct (recordAgain_handled s ok) as (Hh & Hres & Htr).
  assert (Hnone : recordedUri (handled (PressRecordAgain ok) s) = recordedUri s
                  \/ recordedUri (handled (PressRecordAgain ok) s) = None).
  { rewrite Hh. destruct (isPlaying s && negb ok); [left | right]; reflexivity. }
  rewrite (next_settle _ _ Hnone), (proj1 (outputs_no_new_uri _ _ Hnone)).
  rewrite Hh, Hres, Htr.
  assert (Hrec : isRecording s = false).
  { destruct (isRecording s) eqn:E; [| reflexivity].
    rewrite (inv_uri s Hinv E) in Hen. discriminate Hen. }
  assert (Hp : isPaused s = false \/ deps_changed s s = false).
  { right. unfold deps_changed. rewrite !Bool.eqb_reflx. reflexivity. }
  pose proof (inv_timer s Hinv) as Ht. pose proof (inv_metering s Hinv) as Hm.
  unfold live in Ht, Hm. rewrite Hrec in Ht, Hm. cbn in Ht, Hm.
  split; intros Hc; rewrite Hc.
  - unfold settle, deps_changed, live, sessionState. cbn [enabled]. fields.
    rewrite Hrec, Ht, Hm. cbn.
    destruct (isPaused s); cbn; fields; repeat split; try reflexivity;
      apply andb_false_iff in Hc as [Hc | Hc];
      try (rewrite Hc; reflexivity);
      apply negb_false_iff in Hc; subst ok; reflexivity.
  - apply andb_true_iff in Hc as [Hc1 Hc2]. apply negb_true_iff in Hc2. subst ok.
    rewrite Hc1.
    unfold settle, deps_changed. rewrite !Bool.eqb_reflx. cbn.
    unfold sessionState. rewrite Hen. repeat split; reflexivity.
Qed.

Lemma record_again_discards_witness :
  sessionState (next (PressRecordAgain true) (next (PressStop stop0) (session 5))) = Idle
  /\ next (PressRecordAgain false)
       (next (PressPlay playOk) (next (PressStop stop0) (session 5)))
     = next (PressPlay playOk) (next (PressStop stop0) (session 5)).
Proof.
  split.
  - refine (proj1 (proj1 (record_again_discards (next (PressStop stop0) (session 5)) true
                            _ eq_refl) eq_refl)).
    apply reachable_step;
      [exact (session_reachable 5 session_5_enabled) | reflexivity].
  - refine (proj1 (proj2 (record_again_discards
                            (next (PressPlay playOk) (next (PressStop stop0) (session 5)))
                            false _ eq_refl) eq_refl)).
    apply reachable_step; [| reflexivity].
    apply reachable_step;
      [exact (session_reachable 5 session_5_enabled) | reflexivity].
Defined.

(** ** The playback poll (lines 95-112) *)

(** The 100 ms poll copies the player's playing flag into isPlaying and
    touches nothing else, so a playback that ended on its own is shown as
    stopped after one poll, and polling again with the same answer changes
    nothing. *)
Theorem poll_syncs_playing : forall s playing,
  next (PollPlayback playing) s = set_isPlaying playing s
  /\ outputs (PollPlayback playing) s = []
  /\ next (PollPlayback playing) (next (PollPlayback playing) s)
     = next (PollPlayback playing) s.
Proof.
  intros s playing.
  assert (Hh : forall s', handled (PollPlayback playing) s' = set_isPlaying playing s').
  { intros s'. open_state s'. destruct playing, play; reflexivity. }
  assert (Hn : forall s', next (PollPlayback playing) s' = set_isPlaying playing s').
  { intros s'. rewrite next_settle by (left; rewrite Hh; reflexivity).
    rewrite Hh. unfold settle, deps_changed. cbn.
    rewrite !Bool.eqb_reflx. reflexivity. }
  split; [apply Hn | split].
  - rewrite (proj1 (outputs_no_new_uri (PollPlayback playing) s
                      (or_introl (f_equal recordedUri (Hh s))))).
    open_state s. destruct playing, play; reflexivity.
  - rewrite !Hn. reflexivity.
Qed.

(** ** Pressing play twice (lines 433-491, 704) *)

(** Two presses of the play button in a row, on a stopped player that
    works: the first starts the playback, the second only pauses it.  No
    second play command is issued and the component ends not playing. *)
Theorem play_twice : forall s,
  truthy (recordedUri s) = true -> isPlaying s = false ->
  outputs (PressPlay playOk) s
  = [Dev (player_seekTo 0) true; Dev (setAudioModeAsync true false) true;
     Dev player_play true]
  /\ outputs (PressPlay playOk) (next (PressPlay playOk) s) = [Dev player_pause true]
  /\ isPlaying (next (PressPlay playOk) (next (PressPlay playOk) s)) = false
  /\ next (PressPlay playOk) (next (PressPlay playOk) s) = s.
Proof.
  intros s Hu Hp.
  assert (Hn1 : next (PressPlay playOk) s = set_isPlaying true s).
  { rewrite (next_settle _ _ (play_uri s playOk)).
    open_state s. fields. subst play. destruct uri as [[| a u] |]; try discriminate Hu.
    destruct rec, pau; reflexivity. }
  assert (Hn2 : next (PressPlay playOk) (set_isPlaying true s) = s).
  { rewrite (next_settle _ _ (play_uri _ playOk)).
    open_state s. fields. subst play. destruct rec, pau; reflexivity. }
  rewrite Hn1, Hn2.
  rewrite (proj1 (outputs_no_new_uri _ _ (play_uri s playOk))).
  rewrite (proj1 (outputs_no_new_uri _ _ (play_uri (set_isPlaying true s) playOk))).
  open_state s. fields. subst play. destruct uri as [[| a u] |]; try discriminate Hu.
  repeat split; reflexivity.
Qed.

Lemma play_twice_witness :
  next (PressPlay playOk) (next (PressPlay playOk) (next (PressStop stop0) (session 5)))
  = next (PressStop stop0) (session 5).
Proof.
  exact (proj2 (proj2 (proj2
           (play_twice (next (PressStop stop0) (session 5)) eq_refl eq_refl)))).
Defined.

(** ** The permission flag (lines 57, 254-277, 687) *)







(** ** No leaked interval (lines 136-187, 204-252) *)

(** In every reachable state the duration timer and the metering monitor
    are live exactly while the session is Recording: they are never left
    running in Idle, Paused or Stopped, and never missing while Recording;
    a paused session is a recording one, and a recording or paused session
    has no artifact. *)
Theorem intervals_follow_session : forall s,
  reachable s ->
  (timerRef s = true <-> sessionState s = Recording)
  /\ (meteringRef s = true <-> sessionState s = Recording)
  /\ (forall d e, enabled s (TimerTick d e) = true -> sessionState s = Recording)
  /\ (isRecording s = true -> recordedUri s = None \/ recordedUri s = Some "").
Proof.
  intros s Hs. pose proof (reachable_Inv s Hs) as Hinv.
  pose proof Hinv as [Ht Hm Hu _].
  assert (Hlive : live s = true <-> sessionState s = Recording).
  { split.
    - intros H. rewrite <- Ht in H. apply timer_live_Recording; assumption.
    - intros H. destruct (Recording_fields s Hinv H) as (_ & _ & _ & H1 & _).
      rewrite <- Ht. exact H1. }
  rewrite Ht, Hm. split; [exact Hlive | split; [exact Hlive | split]].
  - intros d e H. cbn [enabled] in H. rewrite Ht in H. apply Hlive, H.
  - intros Hr. specialize (Hu Hr).
    destruct (recordedUri s) as [[| a u] |]; [right | discriminate Hu | left];
      reflexivity.
Qed.

Lemma intervals_follow_session_witness :
  timerRef (next (PressPause true) (session 5)) = true
  <-> sessionState (next (PressPause true) (session 5)) = Recording.
Proof.
  refine (proj1 (intervals_follow_session (next (PressPause true) (session 5)) _)).
  apply reachable_step;
    [exact (session_reachable 5 session_5_enabled) | reflexivity].
Defined.

(** ** Cleanup at unmount (lines 84-92, 493-526) *)

(** The cleanup of the mount effect calls the cleanupRecording of the first
    render (the effect has an empty dependency list), whose closure holds
    the initial isRecording and isPlaying. *)
Definition unmountCleanup (e : CloseEnv) : M unit := cleanupRecording initial e.

(** Closing a recorder that records stops the device; the cleanup at
    unmount does not.  It clears both interval refs and nothing else: it
    issues no device call, so a recording that is active when the
    component unmounts is not stopped by it. *)
Theorem unmount_cleanup_is_stale : forall s e,
  isRecording s = true ->
  In (Dev recorder_stop (cl_stopOk e)) (outputs (PressClose e) s)
  /\ unmountCleanup e s []
     = (Returned tt, set_meteringRef false (set_timerRef false s), [])
  /\ isRecording (snd (fst (unmountCleanup e s []))) = true.
Proof.
  intros s e Hr. split; [| split; [reflexivity | exact Hr]].
  apply trace_outputs. open_state s. fields. subst rec. open_env.
  cbn [cl_stopOk]. unfold trace, handler, handleClose, cleanupRecording.
  run_model; cbn [In]; auto.
Qed.

Lemma unmount_cleanup_is_stale_witness :
  isRecording (snd (fst (unmountCleanup closeOk (session 5) []))) = true.
Proof.
  exact (proj2 (proj2 (unmount_cleanup_is_stale (session 5) closeOk eq_refl))).
Defined.

(** ** The audio level (lines 153-160, 651) *)

Lemma Math_max_cases : forall a b,
  (Qle_bool a b = true /\ Math_max a b = b)
  \/ (Qle_bool a b = false /\ Math_max a b = a).
Proof.
  intros a b. unfold Math_max. destruct (Qle_bool a b); [left | right]; auto.
Qed.

Lemma Math_min_cases : forall a b,
  (Qle_bool a b = true /\ Math_min a b = a)
  \/ (Qle_bool a b = false /\ Math_min a b = b).
Proof.
  intros a b. unfold Math_min. destruct (Qle_bool a b); [left | right]; auto.
Qed.

Ltac level_cases :=
  repeat match goal with
  | |- context [Math_max ?a ?b] =>
      let E := fresh "E" in
      destruct (Math_max_cases a b) as [[? E] | [? E]]; rewrite E in *; clear E
  | |- context [Math_min ?a ?b] =>
      let E := fresh "E" in
      destruct (Math_min_cases a b) as [[? E] | [? E]]; rewrite E in *; clear E
  | _ : context [Math_max ?a ?b] |- _ =>
      let E := fresh "E" in
      destruct (Math_max_cases a b) as [[? E] | [? E]]; rewrite E in *; clear E
  | _ : context [Math_min ?a ?b] |- _ =>
      let E := fresh "E" in
      destruct (Math_min_cases a b) as [[? E] | [? E]]; rewrite E in *; clear E
  end;
  repeat match goal with
  | H : Qle_bool _ _ = true |- _ => apply Qle_bool_iff in H
  | H : Qle_bool _ _ = false |- _ => apply Qle_bool_false in H
  end.

Lemma scaled_le : forall a b : Q,
  (a <= b -> (a + 160) / 160 <= (b + 160) / 160)%Q.
Proof.
  intros a b H. unfold Qdiv. apply Qmult_le_compat_r.
  - apply Qplus_le_compat; [exact H | apply Qle_refl].
  - discriminate.
Qed.

Lemma normalize_bounds : forall m, (0 <= normalize m /\ normalize m <= 1)%Q.
Proof.
  intros [db |]; cbn [normalize]; [| split; discriminate].
  generalize ((db + 160) / 160)%Q. intros x.
  split; level_cases; lra.
Qed.

Lemma normalize_monotone : forall a b,
  (a <= b -> normalize (Some a) <= normalize (Some b))%Q.
Proof.
  intros a b H. apply scaled_le in H. cbn [normalize].
  generalize dependent ((a + 160) / 160)%Q. intros x.
  generalize ((b + 160) / 160)%Q. intros y H.
  level_cases; lra.
Qed.

Lemma normalize_linear : forall db,
  (-160 <= db -> db <= 0 -> normalize (Some db) == (db + 160) / 160)%Q.
Proof.
  intros db H1 H2. cbn [normalize].
  assert (H3 : (0 <= (db + 160) / 160)%Q).
  { apply Qle_shift_div_l; [reflexivity | lra]. }
  assert (H4 : ((db + 160) / 160 <= 1)%Q).
  { apply Qle_shift_div_r; [reflexivity | lra]. }
  revert H3 H4. generalize ((db + 160) / 160)%Q. intros x H3 H4.
  level_cases; lra.
Qed.

Lemma normalize_saturates : forall db,
  ((0 <= db -> normalize (Some db) == 1)
   /\ (db <= -160 -> normalize (Some db) == 0))%Q.
Proof.
  intros db. cbn [normalize]. split; intros H.
  - assert (H3 : (1 <= (db + 160) / 160)%Q).
    { apply Qle_shift_div_l; [reflexivity | lra]. }
    revert H3. generalize ((db + 160) / 160)%Q. intros x H3.
    level_cases; lra.
  - assert (H3 : ((db + 160) / 160 <= 0)%Q).
    { apply Qle_shift_div_r; [reflexivity | lra]. }
    revert H3. generalize ((db + 160) / 160)%Q. intros x H3.
    level_cases; lra.
Qed.

(** A JavaScript number as far as this computation tells numbers apart: a
    finite value, taken exactly, an infinity, or NaN. *)
Inductive JsNumber : Type :=
| Finite (q : Q)
| PosInfinity
| NegInfinity
| NaN.

(** [x + c] and [x / c] for a finite constant c, positive for the division. *)
Definition js_plus (x : JsNumber) (c : Q) : JsNumber :=
  match x with
  | Finite q => Finite (q + c)
  | PosInfinity => PosInfinity
  | NegInfinity => NegInfinity
  | NaN => NaN
  end.

Definition js_div (x : JsNumber) (c : Q) : JsNumber :=
  match x with
  | Finite q => Finite (q / c)
  | PosInfinity => PosInfinity
  | NegInfinity => NegInfinity
  | NaN => NaN
  end.

(** Math.min(a, x) and Math.max(a, x) for a finite a: NaN if x is NaN. *)
Definition js_Math_min (a : Q) (x : JsNumber) : JsNumber :=
  match x with
  | Finite q => Finite (Math_min a q)
  | PosInfinity => Finite a
  | NegInfinity => NegInfinity
  | NaN => NaN
  end.

Definition js_Math_max (a : Q) (x : JsNumber) : JsNumber :=
  match x with
  | Finite q => Finite (Math_max a q)
  | PosInfinity => PosInfinity
  | NegInfinity => Finite a
  | NaN => NaN
  end.

(** Lines 153-160 on every number the device can report; [None] is an
    undefined or null reading.  NaN is a number: it passes the test of line
    153. *)
Definition normalizeNumber (metering : option JsNumber) : JsNumber :=
  match metering with
  | Some m => js_Math_max 0 (js_Math_min 1 (js_div (js_plus m 160) 160))
  | None => Finite 0
  end.

(** A level the bar can draw: a finite number between 0 and 1. *)
Definition drawable (level : JsNumber) : Prop :=
  match level with
  | Finite l => (0 <= l /\ l <= 1)%Q
  | _ => False
  end.

(** The level of a sample is a finite number in [0, 1] for every reading
    but one: a NaN reading passes the undefined/null test and gives the
    level NaN.  A missing reading gives 0, plus infinity 1 and minus
    infinity 0.  On a finite reading the level is the one [normalize]
    computes: (db + 160) / 160 between -160 dB and 0 dB, 1 for louder and 0
    for quieter readings, and never smaller for a larger reading. *)
Theorem audio_level_range : forall a b m,
  (m <> Some NaN -> drawable (normalizeNumber m))
  /\ normalizeNumber (Some NaN) = NaN
  /\ normalizeNumber None = Finite 0
  /\ normalizeNumber (Some PosInfinity) = Finite 1
  /\ normalizeNumber (Some NegInfinity) = Finite 0
  /\ normalizeNumber (Some (Finite a)) = Finite (normalize (Some a))
  /\ (-160 <= a -> a <= 0 -> normalize (Some a) == (a + 160) / 160)%Q
  /\ (0 <= a -> normalize (Some a) == 1)%Q
  /\ (a <= -160 -> normalize (Some a) == 0)%Q
  /\ (a <= b -> normalize (Some a) <= normalize (Some b))%Q.
Proof.
  intros a b m.
  split.
  { intros Hm. destruct m as [[q | | |] |]; cbn.
    - apply (normalize_bounds (Some q)).
    - split; discriminate.
    - split; discriminate.
    - elim Hm. reflexivity.
    - split; discriminate. }
  split; [reflexivity |].
  split; [reflexivity |].
  split; [reflexivity |].
  split; [reflexivity |].
  split; [reflexivity |].
  split; [apply normalize_linear |].
  split; [apply normalize_saturates |].
  split; [apply normalize_saturates |].
  apply normalize_monotone.
Qed.

Lemma audio_level_range_witness :
  drawable (normalizeNumber (Some (Finite (-40))))
  /\ (normalize (Some (-80)) == (-80 + 160) / 160)%Q.
Proof.
  split.
  - refine (proj1 (audio_level_range 0 0 (Some (Finite (-40)))) _). discriminate.
  - refine (proj1 (proj2 (proj2 (proj2 (proj2 (proj2 (proj2
             (audio_level_range (-80) 0 None))))))) _ _);
      discriminate.
Defined.

(** The level set by a handler is the old one, 0, or a normalized reading. *)
Lemma handled_audioLevel : forall s ev,
  audioLevel (handled ev s) = audioLevel s
  \/ audioLevel (handled ev s) = 0%Q
  \/ exists m, audioLevel (handled ev s) = normalize m.
Proof.
  intros s ev. remember (handled ev s) as h eqn:E. revert h E.
  open_state s. destruct ev; open_env; run_model; intros h ->; fields;
    first [ left; reflexivity | right; left; reflexivity
          | right; right; eexists; reflexivity ].
Qed.

Lemma effects_audioLevel : forall prev ok s1,
  audioLevel (snd (fst (effects prev ok s1 []))) = audioLevel s1
  \/ audioLevel (snd (fst (effects prev ok s1 []))) = 0%Q.
Proof.
  intros prev ok s1. destruct prev, s1. run_model; auto.
Qed.

Lemma next_audioLevel : forall s ev,
  audioLevel (next ev s) = audioLevel s
  \/ audioLevel (next ev s) = 0%Q
  \/ exists m, audioLevel (next ev s) = normalize m.
Proof.
  intros s ev. unfold next, step.
  pose proof (effects_audioLevel s (replaceAnswer ev) (handled ev s)) as H.
  destruct (effects s (replaceAnswer ev) (handled ev s) []) as [[r s2] o2].
  cbn [fst snd] in *. destruct H as [H | H]; rewrite H.
  - apply handled_audioLevel.
  - right; left; reflexivity.
Qed.

(** As long as every metering sample is a finite number or missing, which
    is what a [MeteringTick] of this model carries, the level the component
    holds lies in [0, 1] after every run from the mount: the level bar is
    then never drawn below 0% or above 100%.  (A NaN sample, which the
    events of this model cannot carry, would store the level NaN: see
    [audio_level_range].) *)
Theorem audio_level_of_finite_samples : forall evs perm modeOk,
  (0 <= audioLevel (run evs (mounted perm modeOk))
   /\ audioLevel (run evs (mounted perm modeOk)) <= 1)%Q.
Proof.
  intros evs perm modeOk.
  assert (H0 : (0 <= audioLevel (mounted perm modeOk)
                /\ audioLevel (mounted perm modeOk) <= 1)%Q).
  { destruct perm as [[|] |], modeOk; split; discriminate. }
  revert H0. generalize (mounted perm modeOk).
  induction evs as [| ev rest IH]; intros s Hs; cbn [run]; [exact Hs |].
  apply IH.
  destruct (next_audioLevel s ev) as [H | [H | [m' H]]]; rewrite H.
  - exact Hs.
  - split; discriminate.
  - apply normalize_bounds.
Qed.

(** ** The timer display (lines 546-550, 642, 698) *)

(** Number.prototype.toString on a natural number. *)
Definition toString (n : nat) : string :=
  NilZero.string_of_uint (Nat.to_uint n).

(** String.prototype.padStart with a one-character filler: the string is
    returned as it is when it already has the target length or more. *)
Definition padStart (target : nat) (fill : ascii) (str : string) : string :=
  string_of_list_ascii (repeat fill (target - String.length str)) ++ str.

(** formatTime, lines 546-550. *)
Definition formatTime (seconds : nat) : string :=
  let mins := seconds / 60 in
  let secs := seconds mod 60 in
  padStart 2 "0" (toString mins) ++ ":" ++ padStart 2 "0" (toString secs).

Definition digit (d : nat) : ascii := ascii_of_nat (48 + d).

(** Two digits of minutes, a colon, two digits of seconds. *)
Definition clock (n : nat) : string :=
  String (digit (n / 600))
    (String (digit (n / 60 mod 10))
       (String ":"
          (String (digit (n mod 60 / 10))
             (String (digit (n mod 10)) "")))).

Lemma formatTime_clock_checked :
  forallb (fun n => String.eqb (formatTime n) (clock n)) (seq 0 (100 * 60)) = true.
Proof. vm_compute. reflexivity. Qed.

Lemma formatTime_clock : forall n, n < 100 * 60 -> formatTime n = clock n.
Proof.
  intros n Hn. apply String.eqb_eq.
  pose proof formatTime_clock_checked as H. rewrite forallb_forall in H.
  apply (H n). apply in_seq. split; [apply Nat.le_0_l | exact Hn].
Qed.

Lemma digit_inj : forall a b, a < 10 -> b < 10 -> digit a = digit b -> a = b.
Proof.
  intros a b Ha Hb H. unfold digit in H.
  apply (f_equal nat_of_ascii) in H.
  rewrite !nat_ascii_embedding in H by lia. lia.
Qed.

Lemma String_inj : forall a b s t, String a s = String b t -> a = b /\ s = t.
Proof. intros a b s t H. injection H. auto. Qed.

(** Below 100 minutes formatTime gives exactly five characters, MM:SS with
    both fields zero-padded, and different durations give different
    strings.  In every reachable state of the recorder the timer therefore
    reads between 00:00 and 04:59: its minutes are one digit from 0 to 4
    behind a leading zero, and it never shows 05:00. *)
Theorem timer_display : forall a b s,
  (a < 100 * 60 -> formatTime a = clock a /\ String.length (formatTime a) = 5)
  /\ (a < 100 * 60 -> b < 100 * 60 -> formatTime a = formatTime b -> a = b)
  /\ (reachable s ->
        formatTime (duration s)
        = String "0" (String (digit (duration s / 60))
            (String ":" (String (digit (duration s mod 60 / 10))
               (String (digit (duration s mod 10)) ""))))
        /\ duration s / 60 <= 4).
Proof.
  intros a b s. split; [| split].
  - intros Ha. rewrite (formatTime_clock a Ha). split; reflexivity.
  - intros Ha Hb H. rewrite (formatTime_clock a Ha), (formatTime_clock b Hb) in H.
    unfold clock in H.
    apply String_inj in H as [H1 H]. apply String_inj in H as [H2 H].
    apply String_inj in H as [_ H]. apply String_inj in H as [H3 H].
    apply String_inj in H as [H4 _].
    assert (Ea : forall n, n < 100 * 60 ->
              n / 600 < 10 /\ n / 60 mod 10 < 10 /\ n mod 60 / 10 < 10 /\ n mod 10 < 10).
    { intros n Hn. repeat split.
      - apply Nat.Div0.div_lt_upper_bound. lia.
      - apply Nat.mod_upper_bound. discriminate.
      - apply Nat.Div0.div_lt_upper_bound.
        pose proof (Nat.mod_upper_bound n 60). lia.
      - apply Nat.mod_upper_bound. discriminate. }
    destruct (Ea a Ha) as (A1 & A2 & A3 & A4).
    destruct (Ea b Hb) as (B1 & B2 & B3 & B4).
    apply digit_inj in H1, H2, H3, H4; try assumption.
    assert (D : forall n, n = 600 * (n / 600) + 60 * (n / 60 mod 10)
                          + 10 * (n mod 60 / 10) + n mod 10).
    { intros n.
      pose proof (Nat.div_mod_eq n 60) as E1.
      pose proof (Nat.div_mod_eq (n / 60) 10) as E2.
      pose proof (Nat.div_mod_eq (n mod 60) 10) as E3.
      rewrite Nat.Div0.div_div in E2. change (60 * 10) with 600 in E2.
      assert (E4 : (n mod 60) mod 10 = n mod 10).
      { change 60 with (10 * 6). rewrite Nat.Div0.mod_mul_r.
        rewrite Nat.mul_comm, Nat.Div0.mod_add. apply Nat.Div0.mod_mod. }
      rewrite E4 in E3. lia. }
    rewrite (D a), (D b). lia.
  - intros Hs. pose proof (reachable_duration s Hs) as Hd. unfold MAX_DURATION in Hd.
    assert (Hq : duration s / 60 <= 4).
    { apply Nat.lt_succ_r. apply Nat.Div0.div_lt_upper_bound. exact Hd. }
    split; [| exact Hq].
    rewrite formatTime_clock by (eapply Nat.lt_trans; [exact Hd | vm_compute; lia]).
    unfold clock.
    assert (H600 : duration s / 600 = 0) by (apply Nat.div_small; lia).
    assert (H10 : duration s / 60 mod 10 = duration s / 60)
      by (apply Nat.mod_small; lia).
    rewrite H600, H10. reflexivity.
Qed.

Lemma timer_display_witness :
  formatTime 299 = clock 299 /\ String.length (formatTime 299) = 5.
Proof.
  refine (proj1 (timer_display 299 0 initial) _). vm_compute. lia.
Defined.

(** ** The caller: the journal modal that hosts the recorder
    (JournalModal, lines 59-60, 326-340, 362-369) *)

Record Journal : Type := mkJournal {
  voiceRecorderVisible : bool;
  audioAttachment : option (string * nat)
}.

(** The onSave prop, lines 365-368. *)
Definition journal_onSave (uri : string) (dur : nat) (j : Journal) : Journal :=
  mkJournal false (Some (uri, dur)).

(** The onClose prop, line 364. *)
Definition journal_onClose (j : Journal) : Journal :=
  mkJournal false (audioAttachment j).

(** The journal reacting to what the recorder emits, in order. *)
Fixpoint deliver (outs : list Output) (j : Journal) : Journal :=
  match outs with
  | [] => j
  | OnSave u d :: rest => deliver rest (journal_onSave u d j)
  | OnClose :: rest => deliver rest (journal_onClose j)
  | _ :: rest => deliver rest j
  end.

(** The time inside the attachment line, lines 330-331. *)
Definition attachmentTime (dur : nat) : string :=
  toString (dur / 60) ++ ":" ++ padStart 2 "0" (toString (dur mod 60)).

Definition attachmentText (dur : nat) : string :=
  "Voice recording attached (" ++ attachmentTime dur ++ ")".

Lemma deliver_app : forall o1 o2 j, deliver (o1 ++ o2) j = deliver o2 (deliver o1 j).
Proof.
  induction o1 as [| x o1 IH]; intros o2 j; [reflexivity |].
  destruct x; cbn [deliver app]; apply IH.
Qed.

Lemma deliver_effect_outputs : forall o j, Forall effect_output o -> deliver o j = j.
Proof.
  induction 1 as [| x o Hx _ IH]; [reflexivity |].
  destruct x; try contradiction Hx; exact IH.
Qed.

Lemma deliver_outputs : forall ev s j,
  deliver (outputs ev s) j = deliver (trace ev s) j.
Proof.
  intros ev s j. rewrite outputs_trace, deliver_app.
  apply deliver_effect_outputs. apply (eff_outputs _ _ _ _ (next_post ev s)).
Qed.

Lemma deliver_save_trace : forall s ce u j,
  recordedUri s = Some u -> truthy (Some u) = true -> 0 < duration s ->
  deliver (trace (PressSave ce) s) j = mkJournal false (Some (u, duration s)).
Proof.
  intros s ce u j Hu Ht Hd. revert Ht Hd.
  remember (trace (PressSave ce) s) as t eqn:Et. revert t Et.
  open_state s; fields; subst uri. open_env.
  run_model; intros t -> Ht Hd; try discriminate Ht; nat_facts;
    try (exfalso; exact (Nat.lt_irrefl _ (Nat.lt_le_trans _ _ _ Hd Heqb)));
    reflexivity.
Qed.

Lemma deliver_close_trace : forall s ce j,
  deliver (trace (PressClose ce) s) j = journal_onClose j.
Proof.
  intros s ce j. remember (trace (PressClose ce) s) as t eqn:Et. revert t Et.
  open_state s. open_env. run_model; intros t ->; reflexivity.
Qed.

Lemma attachmentTime_checked :
  forallb (fun d => String.eqb (formatTime d) (String "0" (attachmentTime d)))
    (seq 0 (10 * 60)) = true.
Proof. vm_compute. reflexivity. Qed.

(** The hand-over to the journal.  Saving a recording gives the journal
    exactly the artifact and the duration the recorder shows and hides the
    recorder; the duration handed over is between 1 and 299 seconds, and
    the journal's attachment line shows the recorder's timer text without
    its leading zero.  Closing the recorder hides it and leaves the
    journal's attachment as it was. *)
Theorem journal_hand_over : forall s ce u j,
  reachable s ->
  recordedUri s = Some u -> truthy (Some u) = true -> 0 < duration s ->
  deliver (outputs (PressSave ce) s) j = mkJournal false (Some (u, duration s))
  /\ 1 <= duration s <= 299
  /\ formatTime (duration s) = String "0" (attachmentTime (duration s))
  /\ deliver (outputs (PressClose ce) s) j
     = mkJournal false (audioAttachment j).
Proof.
  intros s ce u j Hs Hu Ht Hd.
  pose proof (reachable_duration s Hs) as Hlt. unfold MAX_DURATION in Hlt.
  split; [rewrite deliver_outputs; apply deliver_save_trace; assumption |].
  split; [lia |].
  split; [| rewrite deliver_outputs; apply deliver_close_trace].
  apply String.eqb_eq.
  pose proof attachmentTime_checked as H. rewrite forallb_forall in H.
  apply (H (duration s)). apply in_seq. split; [apply Nat.le_0_l |].
  eapply Nat.lt_trans; [exact Hlt | vm_compute; lia].
Qed.

Lemma journal_hand_over_witness :
  deliver (outputs (PressSave closeOk) (next (PressStop stop0) (session 5)))
    (mkJournal true None)
  = mkJournal false (Some (uri0, duration (next (PressStop stop0) (session 5)))).
Proof.
  refine (proj1 (journal_hand_over (next (PressStop stop0) (session 5)) closeOk uri0
                   (mkJournal true None) _ eq_refl eq_refl _)).
  - apply reachable_step;
      [exact (session_reachable 5 session_5_enabled) | reflexivity].
  - vm_compute. lia.
Defined.

(** ** The automatic stop when the device refuses (lines 229-233, 428-430) *)

Lemma tick_at_cap_stop_fails : forall s e,
  Inv s -> sessionState s = Recording -> S (duration s) = MAX_DURATION ->
  sp_stopOk e = false ->
  next (TimerTick true e) s = s
  /\ outputs (TimerTick true e) s
     = [Dev recorder_getStatus true; Dev recorder_stop false;
        ConsoleError "Stop error" (DeviceFailure recorder_stop)].
Proof.
  intros s e Hinv Hrec Hcap Hok.
  destruct (Recording_fields s Hinv Hrec) as (Hr & Hp & Hu & Ht & Hm).
  assert (Hh : handled (TimerTick true e) s = s
               /\ trace (TimerTick true e) s
                  = [Dev recorder_getStatus true; Dev recorder_stop false;
                     ConsoleError "Stop error" (DeviceFailure recorder_stop)]).
  { clear Hinv Hrec Hr Hp Hu Ht Hm. revert Hcap Hok.
    remember (handled (TimerTick true e) s) as h eqn:E.
    remember (trace (TimerTick true e) s) as t eqn:Et. revert h t E Et.
    open_state s. open_env. cbn [sp_stopOk]. fields.
    replace (S dur) with (dur + 1) by apply Nat.add_1_r.
    run_model; intros h t -> -> Hcap Hok; try discriminate Hok; nat_facts;
      try (exfalso; consts; lia); split; reflexivity. }
  destruct Hh as (Hh & Htr).
  assert (Hsame : recordedUri (handled (TimerTick true e) s) = recordedUri s
                  \/ recordedUri (handled (TimerTick true e) s) = None)
    by (left; rewrite Hh; reflexivity).
  split.
  - rewrite (next_settle _ _ Hsame), Hh.
    unfold settle, deps_changed. rewrite !Bool.eqb_reflx. reflexivity.
  - rewrite (proj1 (outputs_no_new_uri _ _ Hsame)). exact Htr.
Qed.

(** When the recording reaches the cap and the device's stop throws, the
    automatic stop is not given up: the component stays Recording at 299
    seconds with its timer running, and every further tick reads the
    status, calls stop again and logs the error, for as long as the device
    keeps recording and refusing. *)
Theorem auto_stop_retries : forall s e n,
  reachable s ->
  sessionState s = Recording -> duration s = 299 ->
  sp_stopOk e = false ->
  run (ticks e n) s = s
  /\ all_enabled (ticks e n) s = true
  /\ outputs (TimerTick true e) (run (ticks e n) s)
     = [Dev recorder_getStatus true; Dev recorder_stop false;
        ConsoleError "Stop error" (DeviceFailure recorder_stop)].
Proof.
  intros s e n Hs Hrec Hd Hok. pose proof (reachable_Inv s Hs) as Hinv.
  assert (Hcap : S (duration s) = MAX_DURATION) by (rewrite Hd; reflexivity).
  destruct (tick_at_cap_stop_fails s e Hinv Hrec Hcap Hok) as (Hn & Ho).
  destruct (Recording_fields s Hinv Hrec) as (_ & _ & _ & Ht & _).
  assert (Hrun : run (ticks e n) s = s /\ all_enabled (ticks e n) s = true).
  { induction n as [| n IH]; [split; reflexivity |].
    cbn [ticks repeat run all_enabled enabled]. fold (ticks e n).
    rewrite Hn, Ht. exact IH. }
  destruct Hrun as (Hrun & Hen). rewrite Hrun. auto.
Qed.

Lemma auto_stop_retries_witness :
  run (ticks (mkStopEnv false None true) 7) (session 299) = session 299
  /\ outputs (TimerTick true (mkStopEnv false None true))
        (run (ticks (mkStopEnv false None true) 7) (session 299))
     = [Dev recorder_getStatus true; Dev recorder_stop false;
        ConsoleError "Stop error" (DeviceFailure recorder_stop)].
Proof.
  refine ((fun H => conj (proj1 H) (proj2 (proj2 H)))
            (auto_stop_retries (session 299) (mkStopEnv false None true) 7
               (session_reachable 299 session_299_enabled) _ _ eq_refl)).
  - vm_compute. reflexivity.
  - vm_compute. reflexivity.
Defined.

End VoiceRecorder.
